(** * Contact book: a shallow embedding of [classes.py] and [main.py]

    The Python program keeps an in-memory address book (names, phones,
    birthdays) behind a small controller and an interactive command loop.
    This development embeds the classes as Rocq functions and proves (or
    refutes) the properties stated about them.

    Conventions of the embedding:
    - a Python [str] is the list of its Unicode code points;
    - a Python exception is a value of [exn]; a call that may raise
      returns a [result];
    - the controller and the command loop run in a small state monad over
      the address book and the console, which keeps the state and the
      output reached at the moment an exception is raised;
    - [datetime.today()], [str.strip], [str.lower] and the C library's
      rendering of [%Y] belong to the platform and are parameters. *)

From Stdlib Require Import ZArith List String Ascii Bool Lia.
From ExtLib Require Import Structures.Monad.
Import ListNotations.
Import MonadNotation.
Local Open Scope monad_scope.
Local Open Scope Z_scope.

(** ** Exceptions and results *)

Inductive exn : Type :=
| ValueError (msg : string)
| IndexError (msg : string)
| AttributeError (msg : string)
| OverflowError (msg : string)
| EOFError.

Inductive result (A : Type) : Type :=
| Ok (a : A)
| Raise (e : exn).
Arguments Ok {A} a.
Arguments Raise {A} e.

Definition is_ok {A} (r : result A) : bool :=
  match r with Ok _ => true | Raise _ => false end.

Definition is_value_error {A} (r : result A) : bool :=
  match r with Raise (ValueError _) => true | _ => false end.

(** ** Python strings *)

Module PyStr.

(** A character is a Unicode code point. *)
Definition char := Z.
Definition str := list char.

(** An ASCII literal of the source, as a [str]. *)
Definition lit (s : string) : str :=
  map (fun a => Z.of_N (N_of_ascii a)) (list_ascii_of_string s).

Definition len (s : str) : Z := Z.of_nat (List.length s).

Fixpoint eqb (a b : str) : bool :=
  match a, b with
  | [], [] => true
  | x :: a', y :: b' => (x =? y) && eqb a' b'
  | _, _ => false
  end.

(** Truth value of a string: [if s:] holds for the non-empty ones. *)
Definition truthy (s : str) : bool :=
  match s with [] => false | _ :: _ => true end.

Definition in_ranges (table : list (Z * Z)) (c : char) : bool :=
  existsb (fun r => (fst r <=? c) && (c <=? snd r)) table.

(** Code points with Numeric_Type Digit or Decimal: the characters for
    which [str.isdigit] holds (Unicode 14.0.0, inclusive ranges). *)
Definition digit_ranges : list (Z * Z) :=
[ (48, 57); (178, 179); (185, 185); (1632, 1641); (1776, 1785);
  (1984, 1993); (2406, 2415); (2534, 2543); (2662, 2671); (2790, 2799);
  (2918, 2927); (3046, 3055); (3174, 3183); (3302, 3311); (3430, 3439);
  (3558, 3567); (3664, 3673); (3792, 3801); (3872, 3881); (4160, 4169);
  (4240, 4249); (4969, 4977); (6112, 6121); (6160, 6169); (6470, 6479);
  (6608, 6618); (6784, 6793); (6800, 6809); (6992, 7001); (7088, 7097);
  (7232, 7241); (7248, 7257); (8304, 8304); (8308, 8313); (8320, 8329);
  (9312, 9320); (9332, 9340); (9352, 9360); (9450, 9450); (9461, 9469);
  (9471, 9471); (10102, 10110); (10112, 10120); (10122, 10130);
  (42528, 42537); (43216, 43225); (43264, 43273); (43472, 43481);
  (43504, 43513); (43600, 43609); (44016, 44025); (65296, 65305);
  (66720, 66729); (68160, 68163); (68912, 68921); (69216, 69224);
  (69714, 69722); (69734, 69743); (69872, 69881); (69942, 69951);
  (70096, 70105); (70384, 70393); (70736, 70745); (70864, 70873);
  (71248, 71257); (71360, 71369); (71472, 71481); (71904, 71913);
  (72016, 72025); (72784, 72793); (73040, 73049); (73120, 73129);
  (92768, 92777); (92864, 92873); (93008, 93017); (120782, 120831);
  (123200, 123209); (123632, 123641); (125264, 125273); (127232, 127242);
  (130032, 130041) ].

(** Code points of general category Nd: what [\d] matches in a [str]
    pattern and what [int] converts (Unicode 14.0.0).  Every range is a
    run of tens holding the digits 0 to 9 in order. *)
Definition decimal_ranges : list (Z * Z) :=
[ (48, 57); (1632, 1641); (1776, 1785); (1984, 1993); (2406, 2415);
  (2534, 2543); (2662, 2671); (2790, 2799); (2918, 2927); (3046, 3055);
  (3174, 3183); (3302, 3311); (3430, 3439); (3558, 3567); (3664, 3673);
  (3792, 3801); (3872, 3881); (4160, 4169); (4240, 4249); (6112, 6121);
  (6160, 6169); (6470, 6479); (6608, 6617); (6784, 6793); (6800, 6809);
  (6992, 7001); (7088, 7097); (7232, 7241); (7248, 7257); (42528, 42537);
  (43216, 43225); (43264, 43273); (43472, 43481); (43504, 43513);
  (43600, 43609); (44016, 44025); (65296, 65305); (66720, 66729);
  (68912, 68921); (69734, 69743); (69872, 69881); (69942, 69951);
  (70096, 70105); (70384, 70393); (70736, 70745); (70864, 70873);
  (71248, 71257); (71360, 71369); (71472, 71481); (71904, 71913);
  (72016, 72025); (72784, 72793); (73040, 73049); (73120, 73129);
  (92768, 92777); (92864, 92873); (93008, 93017); (120782, 120831);
  (123200, 123209); (123632, 123641); (125264, 125273); (130032, 130041) ].

Definition char_isdigit (c : char) : bool := in_ranges digit_ranges c.
Definition char_isdecimal (c : char) : bool := in_ranges decimal_ranges c.

(** [str.isdigit]: every character is a digit and there is at least one. *)
Definition isdigit (s : str) : bool := truthy s && forallb char_isdigit s.

(** The ten ASCII digits. *)
Definition ascii_digit (c : char) : bool := (48 <=? c) && (c <=? 57).

(** Value of a decimal digit character. *)
Definition decimal_value (c : char) : Z :=
  match find (fun r => (fst r <=? c) && (c <=? snd r)) decimal_ranges with
  | Some r => (c - fst r) mod 10
  | None => 0
  end.

(** [int(s)] on the texts the date pattern captures: decimal digits,
    after the leading blanks [int] skips. *)
Fixpoint lstrip_space (s : str) : str :=
  match s with
  | c :: s' => if c =? 32 then lstrip_space s' else s
  | [] => []
  end.

Definition int (s : str) : Z :=
  fold_left (fun acc c => 10 * acc + decimal_value c) (lstrip_space s) 0.

(** [sep.join(parts)] *)
Fixpoint join (sep : str) (parts : list str) : str :=
  match parts with
  | [] => []
  | [p] => p
  | p :: ps => p ++ sep ++ join sep ps
  end.

End PyStr.

Import PyStr.

(** ** Dates: Python's [datetime.date] *)

Module Date.

Definition MINYEAR : Z := 1.
Definition MAXYEAR : Z := 9999.

Record date : Type := mkdate { year : Z; month : Z; day : Z }.

Definition is_leap (y : Z) : bool :=
  (y mod 4 =? 0) && (negb (y mod 100 =? 0) || (y mod 400 =? 0)).

Definition DAYS_IN_MONTH : list Z :=
  [-1; 31; 28; 31; 30; 31; 30; 31; 31; 30; 31; 30; 31].

Definition DAYS_BEFORE_MONTH : list Z :=
  [-1; 0; 31; 59; 90; 120; 151; 181; 212; 243; 273; 304; 334].

Definition days_in_month (y m : Z) : Z :=
  if (m =? 2) && is_leap y then 29
  else nth (Z.to_nat m) DAYS_IN_MONTH 0.

Definition days_before_year (y : Z) : Z :=
  let y' := y - 1 in
  y' * 365 + y' / 4 - y' / 100 + y' / 400.

Definition days_before_month (y m : Z) : Z :=
  nth (Z.to_nat m) DAYS_BEFORE_MONTH 0
  + (if (2 <? m) && is_leap y then 1 else 0).

Definition ymd2ord (y m d : Z) : Z :=
  days_before_year y + days_before_month y m + d.

Definition DI400Y : Z := Eval cbv in days_before_year 401.
Definition DI100Y : Z := Eval cbv in days_before_year 101.
Definition DI4Y : Z := Eval cbv in days_before_year 5.
Definition MAXORDINAL : Z := Eval cbv in ymd2ord 9999 12 31.

(** Ordinal to (year, month, day), with ordinal 1 = 0001-01-01. *)
Definition ord2ymd (n0 : Z) : date :=
  let n := n0 - 1 in
  let n400 := n / DI400Y in
  let n := n mod DI400Y in
  let y := n400 * 400 + 1 in
  let n100 := n / DI100Y in
  let n := n mod DI100Y in
  let n4 := n / DI4Y in
  let n := n mod DI4Y in
  let n1 := n / 365 in
  let n := n mod 365 in
  let y := y + n100 * 100 + n4 * 4 + n1 in
  if (n1 =? 4) || (n100 =? 4) then mkdate (y - 1) 12 31
  else
    let leapyear := (n1 =? 3) && (negb (n4 =? 24) || (n100 =? 3)) in
    let m := Z.shiftr (n + 50) 5 in
    let preceding :=
      nth (Z.to_nat m) DAYS_BEFORE_MONTH 0
      + (if (2 <? m) && leapyear then 1 else 0) in
    if n <? preceding then
      let m' := m - 1 in
      let preceding' :=
        preceding - (nth (Z.to_nat m') DAYS_IN_MONTH 0
                     + (if (m' =? 2) && leapyear then 1 else 0)) in
      mkdate y m' (n - preceding' + 1)
    else mkdate y m (n - preceding + 1).

(** The field check of the constructor, with the messages of the C
    implementation (less the offending value). *)
Definition check_date_fields (y m d : Z) : result unit :=
  if negb ((MINYEAR <=? y) && (y <=? MAXYEAR))
  then Raise (ValueError "year is out of range")
  else if negb ((1 <=? m) && (m <=? 12))
  then Raise (ValueError "month must be in 1..12")
  else if negb ((1 <=? d) && (d <=? days_in_month y m))
  then Raise (ValueError "day is out of range for month")
  else Ok tt.

(** [date(y, m, d)] *)
Definition new (y m d : Z) : result date :=
  match check_date_fields y m d with
  | Ok _ => Ok (mkdate y m d)
  | Raise e => Raise e
  end.

Definition valid (d : date) : bool :=
  is_ok (check_date_fields (year d) (month d) (day d)).

(** [d.replace(year=y)] builds a new date through the constructor. *)
Definition replace_year (d : date) (y : Z) : result date :=
  new y (month d) (day d).

Definition toordinal (d : date) : Z := ymd2ord (year d) (month d) (day d).

(** Comparison is that of the (year, month, day) triples. *)
Definition ltb (a b : date) : bool :=
  (year a <? year b)
  || ((year a =? year b)
      && ((month a <? month b)
          || ((month a =? month b) && (day a <? day b)))).

Definition eqb (a b : date) : bool :=
  (year a =? year b) && (month a =? month b) && (day a =? day b).

Definition leb (a b : date) : bool := ltb a b || eqb a b.

(** [d + timedelta(days=n)] *)
Definition add_days (d : date) (n : Z) : result date :=
  let o := toordinal d + n in
  if (0 <? o) && (o <=? MAXORDINAL) then Ok (ord2ymd o)
  else Raise (OverflowError "date value out of range").

(** [d.weekday()]: Monday is 0, Sunday is 6. *)
Definition weekday (d : date) : Z := (toordinal d + 6) mod 7.

(** [d.strftime("%A")] in the C locale. *)
Definition strftime_A (d : date) : str :=
  lit (nth (Z.to_nat (weekday d))
         ["Monday"; "Tuesday"; "Wednesday"; "Thursday"; "Friday";
          "Saturday"; "Sunday"]%string ""%string).

Definition digit_char (n : Z) : char := 48 + n mod 10.

(** A number in two digits, as [%d] and [%m] print it. *)
Definition two_digits (n : Z) : str := [digit_char (n / 10); digit_char n].

Definition four_digits (n : Z) : str :=
  [digit_char (n / 1000); digit_char (n / 100);
   digit_char (n / 10); digit_char n].

(** The decimal digits of [n] without padding ([fuel] bounds their
    number). *)
Fixpoint plain_digits (fuel : nat) (n : Z) : str :=
  match fuel with
  | O => []
  | S fuel' =>
      if n <? 10 then [digit_char n]
      else plain_digits fuel' (n / 10) ++ [digit_char n]
  end.

(** [%Y] is printed by the C library.  It is documented as the year in
    four digits (0001, ..., 9999); the GNU C library prints a year below
    1000 without the leading zeros, and CPython hands that through (3.11
    on Linux prints the year 999 as "999").  [pad_year] says which of the
    two the platform does. *)
Definition strftime_Y (pad_year : bool) (y : Z) : str :=
  if pad_year then four_digits y else plain_digits 4 y.

(** [d.strftime("%d.%m.%Y")] *)
Definition strftime_dmY (pad_year : bool) (d : date) : str :=
  two_digits (day d) ++ lit "." ++ two_digits (month d) ++ lit "."
  ++ strftime_Y pad_year (year d).

End Date.

(** ** Sequencing of calls that may raise *)

Definition bind_result {A B} (r : result A) (k : A -> result B) : result B :=
  match r with
  | Ok a => k a
  | Raise e => Raise e
  end.

#[export] Instance Monad_result : Monad result :=
  {| ret := @Ok; bind := @bind_result |}.

(** A [for] loop whose body may raise: the first exception ends it. *)
Fixpoint for_each {A S} (body : S -> A -> result S) (xs : list A) (acc : S)
  : result S :=
  match xs with
  | [] => Ok acc
  | x :: xs' => acc' <- body acc x ;; for_each body xs' acc'
  end.

(** ** Python dictionaries with string keys

    A [dict] keeps its keys in insertion order; assigning to a key that is
    present replaces the value where it stands. *)

Module PyDict.
Section Dict.
Context {V : Type}.

Definition dict := list (str * V).

Definition empty : dict := [].

(** [d.get(k)] *)
Fixpoint get (d : dict) (k : str) : option V :=
  match d with
  | [] => None
  | (k', v) :: d' => if PyStr.eqb k' k then Some v else get d' k
  end.

(** [k in d] *)
Definition contains (d : dict) (k : str) : bool :=
  match get d k with Some _ => true | None => false end.

(** [d[k] = v] *)
Fixpoint set (d : dict) (k : str) (v : V) : dict :=
  match d with
  | [] => [(k, v)]
  | (k', v') :: d' =>
      if PyStr.eqb k' k then (k', v) :: d' else (k', v') :: set d' k v
  end.

(** [del d[k]], for a key that is present *)
Fixpoint del (d : dict) (k : str) : dict :=
  match d with
  | [] => []
  | (k', v') :: d' =>
      if PyStr.eqb k' k then d' else (k', v') :: del d' k
  end.

Definition keys (d : dict) : list str := map fst d.
Definition values (d : dict) : list V := map snd d.
Definition items (d : dict) : list (str * V) := d.

End Dict.
Arguments dict V : clear implicits.

(** [d[k].append(x)] on a [defaultdict(list)]: a missing key is first
    bound to the empty list. *)
Definition append_to {A} (d : dict (list A)) (k : str) (x : A)
  : dict (list A) :=
  match get d k with
  | Some l => set d k (l ++ [x])
  | None => set d k ([] ++ [x])
  end.
End PyDict.

(** ** [datetime.strptime(s, "%d.%m.%Y")]

    The format compiles to the regular expression
    [(?P<d>3[0-1]|[1-2]\d|0[1-9]|[1-9]| [1-9])\.(?P<m>1[0-2]|0[1-9]|[1-9])\.(?P<Y>\d\d\d\d)],
    matched at the start of the text.  A matcher returns every way a piece
    can match, in the order the backtracking engine tries them; the match
    found is the first complete one. *)

Module Strptime.
Definition ch (a : ascii) : char := Z.of_N (N_of_ascii a).

Definition is_char (a : ascii) (c : char) : bool := c =? ch a.
Definition between (lo hi : ascii) (c : char) : bool :=
  (ch lo <=? c) && (c <=? ch hi).

Definition one (p : char -> bool) (s : str) : list (str * str) :=
  match s with
  | c :: r => if p c then [([c], r)] else []
  | _ => []
  end.

Definition two (p q : char -> bool) (s : str) : list (str * str) :=
  match s with
  | c1 :: c2 :: r => if p c1 && q c2 then [([c1; c2], r)] else []
  | _ => []
  end.

(** [3[0-1]|[1-2]\d|0[1-9]|[1-9]| [1-9]] *)
Definition re_d (s : str) : list (str * str) :=
  two (is_char "3") (between "0" "1") s
  ++ two (between "1" "2") char_isdecimal s
  ++ two (is_char "0") (between "1" "9") s
  ++ one (between "1" "9") s
  ++ two (is_char " ") (between "1" "9") s.

(** [1[0-2]|0[1-9]|[1-9]] *)
Definition re_m (s : str) : list (str * str) :=
  two (is_char "1") (between "0" "2") s
  ++ two (is_char "0") (between "1" "9") s
  ++ one (between "1" "9") s.

(** [\d\d\d\d] *)
Definition re_Y (s : str) : list (str * str) :=
  match s with
  | a :: b :: c :: d :: r =>
      if char_isdecimal a && char_isdecimal b
         && char_isdecimal c && char_isdecimal d
      then [([a; b; c; d], r)] else []
  | _ => []
  end.

(** [\.] *)
Definition re_dot (s : str) : list str :=
  match s with
  | c :: r => if is_char "." c then [r] else []
  | [] => []
  end.

(** All complete matches as (day text, month text, year text, text left
    over), in the engine's order. *)
Definition matches (s : str) : list (str * str * str * str) :=
  flat_map (fun d =>
    flat_map (fun r1 =>
      flat_map (fun m =>
        flat_map (fun r2 =>
          map (fun y => (fst d, fst m, fst y, snd y)) (re_Y r2))
          (re_dot (snd m)))
        (re_m r1))
      (re_dot (snd d)))
    (re_d s).

Definition strptime_dmY (s : str) : result Date.date :=
  match matches s with
  | [] => Raise (ValueError "time data does not match format")
  | (d, m, y, rest) :: _ =>
      if truthy rest
      then Raise (ValueError "unconverted data remains")
      else Date.new (int y) (int m) (int d)
  end.
End Strptime.

(** ** Field values *)

(** [Phone(value)] *)
Record Phone : Type := mkPhone { phone_value : str }.

Definition Phone_init (value : str) : result Phone :=
  if ((len value <? 10) || (len value >? 12)) || negb (isdigit value)
  then Raise (ValueError "Phone number must be 10 or 12 digits long.")
  else Ok (mkPhone value).

Definition Phone_str (p : Phone) : str := phone_value p.

(** [Birthday(date_str)]: the text and, unless the text is empty, the date
    parsed from it. *)
Record Birthday : Type :=
  mkBirthday { birthday_value : str; birthday_date : option Date.date }.

Definition Birthday_init (date_str : str) : result Birthday :=
  if truthy date_str then
    match Strptime.strptime_dmY date_str with
    | Ok d => Ok (mkBirthday date_str (Some d))
    | Raise (ValueError _) =>
        Raise (ValueError "Invalid birthday format. Use DD.MM.YYYY.")
    | Raise e => Raise e
    end
  else Ok (mkBirthday date_str None).

Definition Birthday_str (pad_year : bool) (b : Birthday) : str :=
  match birthday_date b with
  | Some d => Date.strftime_dmY pad_year d
  | None => lit "No birthday set"
  end.

(** ** Record *)

(** A contact: [name] is the value of its [Name] field. *)
Record Record : Type :=
  mkRecord { name : str; phones : list Phone; birthday : option Birthday }.

Definition Record_init (name : str) : Record := mkRecord name [] None.

Definition add_phone (self : Record) (phone : str) : result Record :=
  p <- Phone_init phone ;;
  Ok (mkRecord (name self) (phones self ++ [p]) (birthday self)).

Definition delete_phone (self : Record) (phone : str) : Record :=
  mkRecord (name self)
    (filter (fun p => negb (PyStr.eqb (Phone_str p) phone)) (phones self))
    (birthday self).

Definition edit_phone (self : Record) (old_phone new_phone : str) : Record :=
  mkRecord (name self)
    (map (fun p => if PyStr.eqb (Phone_str p) old_phone
                   then mkPhone new_phone else p) (phones self))
    (birthday self).

Definition add_birthday (self : Record) (birthday : str) : result Record :=
  b <- Birthday_init birthday ;;
  Ok (mkRecord (name self) (phones self) (Some b)).

Definition Record_str (pad_year : bool) (self : Record) : str :=
  let phones_str := join (lit "; ") (map Phone_str (phones self)) in
  let birthday_str :=
    match birthday self with
    | Some b => Birthday_str pad_year b
    | None => lit "Not specified"
    end in
  lit "Contact name: " ++ name self ++ lit ", phones: " ++ phones_str
  ++ lit ", birthday: " ++ birthday_str.

(** ** AddressBook *)

Record AddressBook : Type := mkAddressBook { data : PyDict.dict Record }.

Definition AddressBook_init : AddressBook := mkAddressBook PyDict.empty.

Definition add_record (self : AddressBook) (record : Record) : AddressBook :=
  mkAddressBook (PyDict.set (data self) (name record) record).

Definition delete_record (self : AddressBook) (name : str) : AddressBook :=
  if PyDict.contains (data self) name
  then mkAddressBook (PyDict.del (data self) name)
  else self.

Definition find (self : AddressBook) (name : str) : option Record :=
  PyDict.get (data self) name.

(** The weekday under which a birthday falling on [d] is listed. *)
Definition birthday_weekday (d : Date.date) : str :=
  if Date.weekday d >=? 5 then lit "Monday" else Date.strftime_A d.

(** The occurrence of a birthday that the loop body looks at: this
    year's, or next year's when this year's is before [today]. *)
Definition occurrence (today born : Date.date) : result Date.date :=
  birthday_this_year <- Date.replace_year born (Date.year today) ;;
  if Date.ltb birthday_this_year today
  then Date.replace_year birthday_this_year (Date.year today + 1)
  else Ok birthday_this_year.

(** One turn of the loop over the records.  A [Birthday] object is true
    whatever it holds; its [date] is [None] when it was built from the
    empty text. *)
Definition per_record (today one_week_ahead : Date.date)
    (birthdays_per_week : PyDict.dict (list str)) (record : Record)
  : result (PyDict.dict (list str)) :=
  match birthday record with
  | None => Ok birthdays_per_week
  | Some b =>
      match birthday_date b with
      | None =>
          Raise (AttributeError
                   "'NoneType' object has no attribute 'replace'")
      | Some born =>
          birthday_this_year <- occurrence today born ;;
          if Date.leb today birthday_this_year
             && Date.leb birthday_this_year one_week_ahead
          then Ok (PyDict.append_to birthdays_per_week
                     (birthday_weekday birthday_this_year) (name record))
          else Ok birthdays_per_week
      end
  end.

(** [today] stands for the value of [datetime.today().date()]. *)
Definition get_birthdays_per_week (self : AddressBook) (today : Date.date)
  : result (PyDict.dict (list str)) :=
  one_week_ahead <- Date.add_days today 7 ;;
  for_each (per_record today one_week_ahead)
    (PyDict.values (data self)) PyDict.empty.

Definition AddressBook_str (pad_year : bool) (self : AddressBook) : str :=
  join [10] (map (Record_str pad_year) (PyDict.values (data self))).

(** ** The controller and the console

    The state of a run: the address book of the one [Contact] object, the
    lines still to be read and the texts written so far.  A computation
    returns its outcome together with the state it reached, also when it
    raises. *)

Record World : Type :=
  mkWorld { address_book : AddressBook; stdin : list str; stdout : list str }.

Definition M (A : Type) : Type := World -> result A * World.

Definition bind_M {A B} (m : M A) (k : A -> M B) : M B :=
  fun w =>
    match m w with
    | (Ok a, w') => k a w'
    | (Raise e, w') => (Raise e, w')
    end.

#[export] Instance Monad_M : Monad M :=
  {| ret := fun A (a : A) (w : World) => (Ok a, w); bind := @bind_M |}.

(** A call that may raise, made from the controller. *)
Definition lift {A} (r : result A) : M A := fun w => (r, w).

Definition get_book : M AddressBook := fun w => (Ok (address_book w), w).

Definition put_book (b : AddressBook) : M unit :=
  fun w => (Ok tt, mkWorld b (stdin w) (stdout w)).

Definition print (text : str) : M unit :=
  fun w => (Ok tt, mkWorld (address_book w) (stdin w) (stdout w ++ [text])).

(** [input(prompt)] writes the prompt and reads a line; at the end of the
    input it raises [EOFError]. *)
Definition input (prompt : str) : M str :=
  fun w =>
    let out := stdout w ++ [prompt] in
    match stdin w with
    | line :: rest => (Ok line, mkWorld (address_book w) rest out)
    | [] => (Raise EOFError, mkWorld (address_book w) [] out)
    end.

(** A record looked up under [key] is the object the dictionary holds:
    changing it is storing the changed record under that key. *)
Definition store (key : str) (record : Record) : M unit :=
  book <- get_book ;;
  put_book (mkAddressBook (PyDict.set (data book) key record)).

Fixpoint print_each (texts : list str) : M unit :=
  match texts with
  | [] => ret tt
  | t :: ts => print t ;; print_each ts
  end.

Module Contact.

Definition init (stdin : list str) : World :=
  mkWorld AddressBook_init stdin [].

Definition add_contact (name phone : str) : M unit :=
  let record := Record_init name in
  record <- lift (add_phone record phone) ;;
  book <- get_book ;;
  put_book (add_record book record) ;;
  print (lit "Contact added successfully.").

Definition change_phone (name new_phone : str) : M unit :=
  book <- get_book ;;
  match find book name with
  | Some record =>
      match phones record with
      | p0 :: _ =>
          store name (edit_phone record (phone_value p0) new_phone) ;;
          print (lit "Phone number changed successfully.")
      | [] => lift (Raise (IndexError "list index out of range"))
      end
  | None => print (lit "Contact not found.")
  end.

Definition show_phone (name : str) : M unit :=
  book <- get_book ;;
  match find book name with
  | Some record =>
      match phones record with
      | p0 :: _ =>
          print (lit "Phone number for " ++ name ++ lit ": "
                 ++ Phone_str p0)
      | [] => lift (Raise (IndexError "list index out of range"))
      end
  | None => print (lit "Contact not found.")
  end.

Definition add_birthday (name birthday : str) : M unit :=
  book <- get_book ;;
  match find book name with
  | Some record =>
      record' <- lift (add_birthday record birthday) ;;
      store name record' ;;
      print (lit "Birthday added successfully.")
  | None => print (lit "Contact not found.")
  end.

Definition show_birthday (pad_year : bool) (name : str) : M unit :=
  book <- get_book ;;
  match find book name with
  | Some record =>
      match birthday record with
      | Some b =>
          print (lit "Birthday for " ++ name ++ lit ": "
                 ++ Birthday_str pad_year b)
      | None =>
          print (lit "No birthday specified for " ++ name ++ lit ".")
      end
  | None => print (lit "Contact not found.")
  end.

Definition birthdays_this_week (today : Date.date) : M unit :=
  book <- get_book ;;
  birthdays_per_week <- lift (get_birthdays_per_week book today) ;;
  match birthdays_per_week with
  | _ :: _ =>
      print (lit "Birthdays for the next week:") ;;
      print_each
        (map (fun item => fst item ++ lit ": " ++ join (lit ", ") (snd item))
             (PyDict.items birthdays_per_week))
  | [] => print (lit "No birthdays for the next week.")
  end.

Definition list_all_contacts (pad_year : bool) : M unit :=
  print (lit "All contacts in the address book:") ;;
  book <- get_book ;;
  print (AddressBook_str pad_year book).

Definition hello : M unit :=
  print (lit "Hello! I'm your address book bot.").

End Contact.

(** ** The command loop of [main.py] *)

Section CommandLoop.

(** [str.strip], [str.lower] and the rendering of [%Y] are the
    platform's. *)
Variables str_strip str_lower : str -> str.
Variable pad_year : bool.

(** [input(prompt).strip()] *)
Definition ask (prompt : str) : M str :=
  line <- input prompt ;;
  ret (str_strip line).

(** One turn of [while True]: [true] to go round again, [false] after
    [break].  [today] is the date of the turn. *)
Definition loop_body (today : Date.date) : M bool :=
  line <- ask (lit "Enter command: ") ;;
  let command := str_lower line in
  if PyStr.eqb command (lit "add") then
    name <- ask (lit "Enter contact name: ") ;;
    phone <- ask (lit "Enter contact phone: ") ;;
    Contact.add_contact name phone ;;
    ret true
  else if PyStr.eqb command (lit "change") then
    name <- ask (lit "Enter contact name: ") ;;
    new_phone <- ask (lit "Enter new phone number: ") ;;
    Contact.change_phone name new_phone ;;
    ret true
  else if PyStr.eqb command (lit "phone") then
    name <- ask (lit "Enter contact name: ") ;;
    Contact.show_phone name ;;
    ret true
  else if PyStr.eqb command (lit "add-birthday") then
    name <- ask (lit "Enter contact name: ") ;;
    birthday <- ask (lit "Enter birthday (DD.MM.YYYY): ") ;;
    Contact.add_birthday name birthday ;;
    ret true
  else if PyStr.eqb command (lit "show-birthday") then
    name <- ask (lit "Enter contact name: ") ;;
    Contact.show_birthday pad_year name ;;
    ret true
  else if PyStr.eqb command (lit "birthdays") then
    Contact.birthdays_this_week today ;;
    ret true
  else if PyStr.eqb command (lit "all") then
    Contact.list_all_contacts pad_year ;;
    ret true
  else if PyStr.eqb command (lit "hello") then
    Contact.hello ;;
    ret true
  else if PyStr.eqb command (lit "close")
          || PyStr.eqb command (lit "exit") then
    print (lit "Exiting program...") ;;
    ret false
  else
    print (lit "Invalid command. Please try again.") ;;
    ret true.

(** [main()], for the turns whose dates [clock] lists. *)
Fixpoint main_loop (clock : list Date.date) : M unit :=
  match clock with
  | [] => ret tt
  | today :: later =>
      again <- loop_body today ;;
      if (again : bool) then main_loop later else ret tt
  end.

Definition main (lines : list str) (clock : list Date.date)
  : result unit * World :=
  main_loop clock (Contact.init lines).

(** The states in which the loop waits for a command. *)
Inductive reachable : World -> Prop :=
| reach_start : forall lines, reachable (Contact.init lines)
| reach_turn : forall w today w',
    reachable w -> loop_body today w = (Ok true, w') -> reachable w'.

End CommandLoop.

(** * Vocabulary of the properties *)

(** What the specification says of [Phone]: accepted exactly when made
    of 10 to 12 ASCII digits. *)
Definition accepts_exactly_ascii_digits (s : str) : Prop :=
  is_ok (Phone_init s) = true <->
  (10 <= len s <= 12 /\ Forall (fun c => ascii_digit c = true) s).

(** The Arabic-Indic digits zero to nine. *)
Definition arabic_indic_phone : str :=
  [1632; 1633; 1634; 1635; 1636; 1637; 1638; 1639; 1640; 1641].

Definition said (w : World) (text : str) : World :=
  mkWorld (address_book w) (stdin w) (stdout w ++ [text]).

(** The states of a directory that [add_record] and [delete_record] build
    from the empty one. *)
Inductive built : AddressBook -> Prop :=
| built_init : built AddressBook_init
| built_add : forall b r, built b -> built (add_record b r)
| built_delete : forall b n, built b -> built (delete_record b n).

Definition one_record_per_name (b : AddressBook) : Prop :=
  NoDup (PyDict.keys (data b)).

(** What the specification says of the controller's [change]: the first
    phone becomes [new_phone] and the phones after it stay as they are. *)
Definition replaces_first_phone_only (w : World) (name new_phone : str)
  : Prop :=
  forall record, find (address_book w) name = Some record ->
  exists record',
    find (address_book (snd (Contact.change_phone name new_phone w))) name
    = Some record'
    /\ phones record' = mkPhone new_phone :: tl (phones record).

(** What [edit_phone] does to a phone that comes after the first one. *)
Definition edited (old_phone new_phone : str) (p : Phone) : Phone :=
  if PyStr.eqb (phone_value p) old_phone then mkPhone new_phone else p.

(** A record with the same number entered twice, as three calls of
    [add_phone] leave it. *)
Definition ann_three_phones : Record :=
  mkRecord (lit "Ann")
    [mkPhone (lit "1111111111"); mkPhone (lit "2222222222");
     mkPhone (lit "1111111111")] None.

(** The directory holding [ann_three_phones] only. *)
Definition ann_world : World :=
  mkWorld (add_record AddressBook_init ann_three_phones) [] [].

(** Every stored record has exactly one phone. *)
Definition one_phone_each (b : AddressBook) : Prop :=
  forall record, In record (PyDict.values (data b)) ->
                 List.length (phones record) = 1%nat.

(** A computation that keeps a property [I] of the directory, however it
    ends. *)
Definition keeps (I : AddressBook -> Prop) {A} (m : M A) : Prop :=
  forall w, I (address_book w) -> I (address_book (snd (m w))).

(** A computation that leaves the directory as it is. *)
Definition reads_only {A} (m : M A) : Prop :=
  forall w, address_book (snd (m w)) = address_book w.

(** The names listed under [day] in the mapping [get_birthdays_per_week]
    returns; a day that is no key lists nobody. *)
Definition bucket (d : PyDict.dict (list str)) (day : str) : list str :=
  match PyDict.get d day with
  | Some names => names
  | None => []
  end.

(** No key of the mapping has the empty list. *)
Definition no_empty_bucket (d : PyDict.dict (list str)) : Prop :=
  forall day names, In (day, names) d -> names <> [].

(** [record] is to be listed under [day] by the name [n]: it has a
    birthday, whose occurrence this year, or next year when this year's
    is before [today], lies from [today] to [one_week_ahead], and [day]
    is the weekday of the occurrence, Monday standing for Saturday and
    Sunday. *)
Definition listed (today one_week_ahead : Date.date) (record : Record)
    (day n : str) : Prop :=
  exists b born occ,
    birthday record = Some b
    /\ birthday_date b = Some born
    /\ occurrence today born = Ok occ
    /\ Date.leb today occ = true
    /\ Date.leb occ one_week_ahead = true
    /\ day = birthday_weekday occ
    /\ n = name record.

(** A birthday on the 29th of February, and one on the 5th of November. *)
Definition leap_day : Birthday :=
  mkBirthday (lit "29.02.2024") (Some (Date.mkdate 2024 2 29)).

Definition fifth_of_november : Birthday :=
  mkBirthday (lit "05.11.1990") (Some (Date.mkdate 1990 11 5)).

Definition ann : Record :=
  mkRecord (lit "Ann") [mkPhone (lit "1234567890")] (Some leap_day).

Definition bob : Record :=
  mkRecord (lit "Bob") [mkPhone (lit "0987654321")] (Some fifth_of_november).

(** Bob alone; Ann alone; Bob and Ann. *)
Definition book_bob : AddressBook := add_record AddressBook_init bob.
Definition book_ann : AddressBook := add_record AddressBook_init ann.
Definition book_bob_ann : AddressBook := add_record book_bob ann.

(** Saturday the 4th of November 2023. *)
Definition a_saturday : Date.date := Date.mkdate 2023 11 4.

(** The stored birthdays for which [get_birthdays_per_week] is shown to
    return: each has a date, a date of the calendar, other than the 29th
    of February. *)
Definition plain_birthdays (b : AddressBook) : Prop :=
  forall record bd, In record (PyDict.values (data b)) ->
    birthday record = Some bd ->
    exists born, birthday_date bd = Some born
                 /\ Date.valid born = true
                 /\ (Date.month born =? 2) && (Date.day born =? 29) = false.

(** *** Birthday texts *)

(** The value of an ASCII digit. *)
Definition digit_value (c : char) : Z := c - 48.

(** [s] has the shape DD.MM.YYYY: two digits, a dot, two digits, a dot,
    four digits, the digits being ASCII digits. *)
Definition dd_mm_yyyy (s : str) : bool :=
  match s with
  | [d1; d2; p1; m1; m2; p2; y1; y2; y3; y4] =>
      forallb ascii_digit [d1; d2; m1; m2; y1; y2; y3; y4]
      && (p1 =? 46) && (p2 =? 46)
  | _ => false
  end.

(** The date a text of that shape denotes. *)
Definition denoted (s : str) : Date.date :=
  match s with
  | [d1; d2; _; m1; m2; _; y1; y2; y3; y4] =>
      Date.mkdate
        (1000 * digit_value y1 + 100 * digit_value y2
         + 10 * digit_value y3 + digit_value y4)
        (10 * digit_value m1 + digit_value m2)
        (10 * digit_value d1 + digit_value d2)
  | _ => Date.mkdate 0 0 0
  end.

(** [s] is of the shape DD.MM.YYYY and names a day of the calendar. *)
Definition real_dd_mm_yyyy (s : str) : bool :=
  dd_mm_yyyy s && Date.valid (denoted s).

(** What the specification says of the constructor: a text that is not
    empty is refused unless it is a real date written DD.MM.YYYY. *)
Definition refused_unless_dd_mm_yyyy (s : str) : Prop :=
  s <> [] -> is_ok (Birthday_init s) = true -> real_dd_mm_yyyy s = true.

(** The text of a day: one or two digits, or a blank before a single
    digit, a digit being any Unicode decimal digit. *)
Definition day_text (dt : str) : Prop :=
  ((1 <= List.length dt <= 2)%nat
   /\ Forall (fun c => char_isdecimal c = true) dt)
  \/ exists c, dt = [32; c] /\ char_isdecimal c = true.

(** The shape the constructor does require of a text it accepts as the
    date [d]: a day of one or two digits, or of a blank and one digit, a
    dot, a month of one or two ASCII digits, a dot, a year of four
    digits, a digit being any Unicode decimal digit; and [d], read off
    the three parts, is a day of the calendar. *)
Definition day_month_year (s : str) (d : Date.date) : Prop :=
  exists dt mt yt,
    s = dt ++ [46] ++ mt ++ [46] ++ yt
    /\ day_text dt
    /\ (1 <= List.length mt <= 2)%nat
    /\ Forall (fun c => ascii_digit c = true) mt
    /\ List.length yt = 4%nat
    /\ Forall (fun c => char_isdecimal c = true) yt
    /\ d = Date.mkdate (int yt) (int mt) (int dt)
    /\ Date.valid d = true.

(** What the specification says of parsing and printing: a real date
    written DD.MM.YYYY is accepted and printed back as it was written. *)
Definition round_trips (pad_year : bool) (s : str) : Prop :=
  real_dd_mm_yyyy s = true ->
  exists b, Birthday_init s = Ok b /\ Birthday_str pad_year b = s.

(** * Vocabulary of the further properties *)

(** The day under which the loop of [get_birthdays_per_week] lists
    [record], if it lists it. *)
Definition listing (today one_week_ahead : Date.date) (record : Record)
  : option str :=
  match birthday record with
  | Some b =>
      match birthday_date b with
      | Some born =>
          match occurrence today born with
          | Ok occ =>
              if Date.leb today occ && Date.leb occ one_week_ahead
              then Some (birthday_weekday occ) else None
          | Raise _ => None
          end
      | None => None
      end
  | None => None
  end.

Definition listed_under (today one_week_ahead : Date.date) (day : str)
    (record : Record) : bool :=
  match listing today one_week_ahead record with
  | Some d => PyStr.eqb d day
  | None => false
  end.

(** The 29th of February. *)
Definition is_leap_day (d : Date.date) : bool :=
  (Date.month d =? 2) && (Date.day d =? 29).

(** Every stored birthday has a date, and a date of the calendar. *)
Definition dated_birthdays (b : AddressBook) : Prop :=
  forall record bd, In record (PyDict.values (data b)) ->
    birthday record = Some bd ->
    exists born, birthday_date bd = Some born /\ Date.valid born = true.

(** [today] lies in a leap year, on the 29th of February at the
    latest. *)
Definition leap_day_ahead (today : Date.date) : bool :=
  Date.is_leap (Date.year today)
  && negb (Date.ltb (Date.mkdate (Date.year today) 2 29) today).

(** Some stored birthday is the 29th of February. *)
Definition holds_leap_day (b : AddressBook) : Prop :=
  exists record bd born,
    In record (PyDict.values (data b))
    /\ birthday record = Some bd
    /\ birthday_date bd = Some born
    /\ is_leap_day born = true.

(** The names of the working days. *)
Definition working_days : list str :=
  [lit "Monday"; lit "Tuesday"; lit "Wednesday"; lit "Thursday";
   lit "Friday"].

(** Every record is stored under its own name. *)
Definition filed_by_name (b : AddressBook) : Prop :=
  forall key record, In (key, record) (data b) -> name record = key.

(** A computation that does not put lines back: the lines still to be
    read are never more after it than before. *)
Definition reads_forward {A} (m : M A) : Prop :=
  forall w, (List.length (stdin (snd (m w))) <= List.length (stdin w))%nat.

(** A computation that returns [true] whenever it returns. *)
Definition goes_on (m : M bool) : Prop :=
  forall w b w', m w = (Ok b, w') -> b = true.

(** [kept] is [all] with some elements left out, the others standing in
    the order they had. *)
Inductive kept_in_order {A : Type} : list A -> list A -> Prop :=
| kept_nil : kept_in_order [] []
| kept_keep : forall x kept all,
    kept_in_order kept all -> kept_in_order (x :: kept) (x :: all)
| kept_drop : forall x kept all,
    kept_in_order kept all -> kept_in_order kept (x :: all).

(** * Properties *)

(** ** Strings and dictionaries *)

Lemma eqb_spec (a b : str) : reflect (a = b) (PyStr.eqb a b).
Proof.
  revert b; induction a as [|x a IH]; intros [|y b]; simpl;
    try (constructor; congruence).
  destruct (Z.eqb_spec x y) as [->|Hxy]; simpl.
  - destruct (IH b) as [->|Hab]; constructor; congruence.
  - constructor; congruence.
Qed.

Lemma eqb_refl (a : str) : PyStr.eqb a a = true.
Proof. destruct (eqb_spec a a); congruence. Qed.

Lemma eqb_neq (a b : str) : a <> b -> PyStr.eqb a b = false.
Proof. destruct (eqb_spec a b); congruence. Qed.

Section DictFacts.
Context {V : Type}.
Implicit Types (d : PyDict.dict V) (k : str) (v : V).

Lemma get_set_same d k v : PyDict.get (PyDict.set d k v) k = Some v.
Proof.
  induction d as [|[k' v'] d IH]; simpl.
  - now rewrite eqb_refl.
  - destruct (eqb_spec k' k) as [->|Hk]; simpl.
    + now rewrite eqb_refl.
    + now rewrite (eqb_neq _ _ Hk).
Qed.

Lemma get_set_other d k k' v :
  k <> k' -> PyDict.get (PyDict.set d k v) k' = PyDict.get d k'.
Proof.
  intros Hk; induction d as [|[k0 v0] d IH]; simpl.
  - now rewrite (eqb_neq _ _ Hk).
  - destruct (eqb_spec k0 k) as [->|Hk0]; simpl.
    + now rewrite (eqb_neq _ _ Hk).
    + now rewrite IH.
Qed.

Lemma set_set d k v1 v2 :
  PyDict.set (PyDict.set d k v1) k v2 = PyDict.set d k v2.
Proof.
  induction d as [|[k0 v0] d IH]; simpl.
  - now rewrite eqb_refl.
  - destruct (eqb_spec k0 k) as [->|Hk0]; simpl.
    + now rewrite eqb_refl.
    + now rewrite (eqb_neq _ _ Hk0), IH.
Qed.

Lemma keys_set_in d k v k' :
  In k' (PyDict.keys (PyDict.set d k v)) <-> k' = k \/ In k' (PyDict.keys d).
Proof.
  induction d as [|[k0 v0] d IH]; simpl.
  - intuition congruence.
  - destruct (eqb_spec k0 k) as [->|Hk0]; simpl.
    + intuition congruence.
    + rewrite IH. intuition congruence.
Qed.

Lemma keys_del_in d k k' :
  In k' (PyDict.keys (PyDict.del d k)) -> In k' (PyDict.keys d).
Proof.
  induction d as [|[k0 v0] d IH]; simpl; auto.
  destruct (eqb_spec k0 k) as [->|Hk0]; simpl; intuition.
Qed.

Lemma NoDup_keys_set d k v :
  NoDup (PyDict.keys d) -> NoDup (PyDict.keys (PyDict.set d k v)).
Proof.
  induction d as [|[k0 v0] d IH]; simpl; intros Hnd.
  - constructor; [intros [] | constructor].
  - inversion Hnd as [|? ? Hnotin Hnd']; subst.
    destruct (eqb_spec k0 k) as [->|Hk0]; simpl.
    + now constructor.
    + constructor; [|now apply IH].
      rewrite keys_set_in. intros [->|Hin]; congruence.
Qed.

Lemma NoDup_keys_del d k :
  NoDup (PyDict.keys d) -> NoDup (PyDict.keys (PyDict.del d k)).
Proof.
  induction d as [|[k0 v0] d IH]; simpl; intros Hnd; auto.
  inversion Hnd as [|? ? Hnotin Hnd']; subst.
  destruct (eqb_spec k0 k) as [->|Hk0]; simpl; auto.
  constructor; [|now apply IH].
  intros Hin. apply Hnotin. eapply keys_del_in; eauto.
Qed.

Lemma values_set_in d k v x :
  In x (PyDict.values (PyDict.set d k v)) ->
  x = v \/ In x (PyDict.values d).
Proof.
  induction d as [|[k0 v0] d IH]; simpl.
  - intuition.
  - destruct (eqb_spec k0 k) as [->|Hk0]; simpl; intuition.
Qed.

Lemma get_in_values d k v :
  PyDict.get d k = Some v -> In v (PyDict.values d).
Proof.
  induction d as [|[k0 v0] d IH]; simpl; [discriminate|].
  destruct (PyStr.eqb k0 k).
  - intros [= ->]. now left.
  - intros H. right. now apply IH.
Qed.

Lemma in_values_get d v :
  NoDup (PyDict.keys d) -> In v (PyDict.values d) ->
  exists k, PyDict.get d k = Some v.
Proof.
  induction d as [|[k0 v0] d IH]; simpl; intros Hnd; [intros []|].
  inversion Hnd as [|? ? Hnotin Hnd']; subst.
  intros [->|Hin].
  - exists k0. now rewrite eqb_refl.
  - destruct (IH Hnd' Hin) as [k Hk]. exists k.
    destruct (eqb_spec k0 k) as [->|Hk0]; auto.
    exfalso. apply Hnotin. clear - Hk.
    induction d as [|[k1 v1] d IH]; simpl in *; [discriminate|].
    destruct (eqb_spec k1 k) as [->|]; auto.
Qed.

End DictFacts.

(** ** Phone numbers *)

Lemma ascii_digit_isdigit (c : char) :
  ascii_digit c = true -> char_isdigit c = true.
Proof.
  unfold ascii_digit, char_isdigit, in_ranges, digit_ranges.
  intros H. simpl. now rewrite H.
Qed.

Lemma ascii_digit_isdecimal (c : char) :
  ascii_digit c = true -> char_isdecimal c = true.
Proof.
  unfold ascii_digit, char_isdecimal, in_ranges, decimal_ranges.
  intros H. simpl. now rewrite H.
Qed.

Lemma forallb_Forall {A} (p : A -> bool) (l : list A) :
  forallb p l = true <-> Forall (fun x => p x = true) l.
Proof.
  rewrite forallb_forall, Forall_forall. reflexivity.
Qed.

(** C4, as the specification has it, fails: ten Arabic-Indic digits make
    a phone number, and none of them is an ASCII digit. *)
Lemma Phone_init_accepts_non_ascii :
  ~ accepts_exactly_ascii_digits arabic_indic_phone.
Proof.
  unfold accepts_exactly_ascii_digits. intros [Hto _].
  assert (Hok : is_ok (Phone_init arabic_indic_phone) = true)
    by reflexivity.
  destruct (Hto Hok) as [_ Hall].
  inversion Hall as [|c l Hc _]; subst. discriminate Hc.
Qed.

(** C4, amended.  [Phone(value)] succeeds exactly when [value] has 10 to
    12 characters and each of them is a digit for [str.isdigit], that is
    a Unicode digit, the ten ASCII digits being among them; every other
    text is refused with the [ValueError] of the constructor. *)
Theorem Phone_init_iff_digits (s : str) :
  (10 <= len s <= 12 /\ Forall (fun c => char_isdigit c = true) s ->
   Phone_init s = Ok (mkPhone s))
  /\ (~ (10 <= len s <= 12 /\ Forall (fun c => char_isdigit c = true) s) ->
      Phone_init s
      = Raise (ValueError "Phone number must be 10 or 12 digits long."))
  /\ (10 <= len s <= 12 /\ Forall (fun c => ascii_digit c = true) s ->
      Phone_init s = Ok (mkPhone s)).
Proof.
  assert (Hmain :
    10 <= len s <= 12 /\ Forall (fun c => char_isdigit c = true) s ->
    Phone_init s = Ok (mkPhone s)).
  { intros [Hlen Hall]. unfold Phone_init, isdigit.
    apply forallb_Forall in Hall. rewrite Hall.
    assert (Ht : truthy s = true).
    { destruct s; [unfold len in Hlen; simpl in Hlen; lia | reflexivity]. }
    rewrite Ht. simpl.
    destruct (Z.ltb_spec (len s) 10); [lia|].
    destruct (Z.gtb_spec (len s) 12); [lia|]. reflexivity. }
  split; [exact Hmain | split].
  - intros Hnot. unfold Phone_init, isdigit.
    destruct (Z.ltb_spec (len s) 10); [reflexivity|].
    destruct (Z.gtb_spec (len s) 12); [reflexivity|]. simpl.
    destruct (truthy s); [|reflexivity]. simpl.
    destruct (forallb char_isdigit s) eqn:Hall; [|reflexivity].
    exfalso. apply Hnot. split; [lia|]. now apply forallb_Forall.
  - intros [Hlen Hall]. apply Hmain. split; [exact Hlen|].
    eapply Forall_impl; [|exact Hall]. apply ascii_digit_isdigit.
Qed.

Lemma Phone_init_iff_digits_witness :
  Phone_init arabic_indic_phone = Ok (mkPhone arabic_indic_phone)
  /\ Phone_init (lit "12345")
     = Raise (ValueError "Phone number must be 10 or 12 digits long.")
  /\ Phone_init (lit "123456789012") = Ok (mkPhone (lit "123456789012")).
Proof.
  split; [|split].
  - destruct (Phone_init_iff_digits arabic_indic_phone) as (Hdigits & _).
    apply Hdigits. split; [vm_compute; split; discriminate|].
    unfold arabic_indic_phone. repeat constructor.
  - destruct (Phone_init_iff_digits (lit "12345")) as (_ & Hother & _).
    apply Hother. intros [[Hlo _] _]. vm_compute in Hlo. now apply Hlo.
  - destruct (Phone_init_iff_digits (lit "123456789012"))
      as (_ & _ & Hascii).
    apply Hascii. split; [vm_compute; split; discriminate|].
    repeat constructor.
Defined.

(** ** The controller *)

Lemma Date_new_raises (y m d : Z) :
  is_ok (Date.new y m d) = false -> is_value_error (Date.new y m d) = true.
Proof.
  unfold Date.new, Date.check_date_fields.
  repeat match goal with |- context [if ?c then _ else _] => destruct c end;
    simpl; congruence.
Qed.

Lemma strptime_raises (s : str) :
  is_ok (Strptime.strptime_dmY s) = false ->
  is_value_error (Strptime.strptime_dmY s) = true.
Proof.
  unfold Strptime.strptime_dmY.
  destruct (Strptime.matches s) as [|[[[d m] y] rest] ?]; [reflexivity|].
  destruct (truthy rest); [reflexivity|]. apply Date_new_raises.
Qed.

(** A birthday text is either accepted or refused with the [ValueError]
    of the constructor. *)
Lemma Birthday_init_raises (s : str) :
  is_ok (Birthday_init s) = false ->
  Birthday_init s
  = Raise (ValueError "Invalid birthday format. Use DD.MM.YYYY.").
Proof.
  unfold Birthday_init. destruct (truthy s); [|discriminate].
  pose proof (strptime_raises s) as H.
  destruct (Strptime.strptime_dmY s) as [d|[]]; simpl in *;
    try discriminate; try reflexivity;
    intros _; specialize (H eq_refl); discriminate.
Qed.

Lemma Phone_init_raises (s : str) :
  is_ok (Phone_init s) = false ->
  Phone_init s
  = Raise (ValueError "Phone number must be 10 or 12 digits long.").
Proof.
  unfold Phone_init.
  destruct (_ || _); [reflexivity | discriminate].
Qed.

Lemma add_contact_raises (w : World) (name phone : str) :
  is_ok (Phone_init phone) = false ->
  Contact.add_contact name phone w
  = (Raise (ValueError "Phone number must be 10 or 12 digits long."), w).
Proof.
  intros Hbad. apply Phone_init_raises in Hbad.
  unfold Contact.add_contact, add_phone, lift. simpl.
  unfold bind_M. rewrite Hbad. reflexivity.
Qed.

(** C10. When the phone text is refused, [add_contact] raises before it
    touches the directory: the state after the call is the state before
    it, so a record already stored under the name is still the one
    [find] returns. *)
Theorem add_contact_invalid_phone_keeps_directory
    (w : World) (name phone : str) :
  is_ok (Phone_init phone) = false ->
  Contact.add_contact name phone w
  = (Raise (ValueError "Phone number must be 10 or 12 digits long."), w)
  /\ find (address_book (snd (Contact.add_contact name phone w))) name
     = find (address_book w) name.
Proof.
  intros Hbad. pose proof (add_contact_raises w name phone Hbad) as Hrun.
  split; [exact Hrun | now rewrite Hrun].
Qed.

Lemma add_contact_invalid_phone_keeps_directory_witness :
  let ann := mkRecord (lit "Ann") [mkPhone (lit "1234567890")] None in
  let w := mkWorld (add_record AddressBook_init ann) [] [] in
  find (address_book (snd (Contact.add_contact (lit "Ann") (lit "12ab") w)))
    (lit "Ann") = Some ann.
Proof.
  intros ann w.
  destruct (add_contact_invalid_phone_keeps_directory w (lit "Ann")
              (lit "12ab") eq_refl) as [_ Hfind].
  rewrite Hfind. reflexivity.
Defined.

(** C8. A refused phone in [add_contact], and a refused birthday in
    [add_birthday] for a contact that exists, raise the [ValueError] of
    the constructor out of the controller, which writes nothing and
    changes nothing; a name with no record makes [change_phone],
    [show_phone], [add_birthday] and [show_birthday] write the
    not-found message and return. *)
Theorem invalid_format_propagates_not_found_reported
    (w : World) (name : str) :
  (forall phone, is_ok (Phone_init phone) = false ->
     Contact.add_contact name phone w
     = (Raise (ValueError "Phone number must be 10 or 12 digits long."), w))
  /\ (forall record birthday,
        find (address_book w) name = Some record ->
        is_ok (Birthday_init birthday) = false ->
        Contact.add_birthday name birthday w
        = (Raise (ValueError "Invalid birthday format. Use DD.MM.YYYY."),
           w))
  /\ (find (address_book w) name = None ->
      forall (text : str) (pad_year : bool),
        Contact.change_phone name text w
        = (Ok tt, said w (lit "Contact not found."))
        /\ Contact.show_phone name w
           = (Ok tt, said w (lit "Contact not found."))
        /\ Contact.add_birthday name text w
           = (Ok tt, said w (lit "Contact not found."))
        /\ Contact.show_birthday pad_year name w
           = (Ok tt, said w (lit "Contact not found."))).
Proof.
  split; [|split].
  - intros phone Hbad. now apply add_contact_raises.
  - intros record birthday Hfind Hbad.
    apply Birthday_init_raises in Hbad.
    unfold Contact.add_birthday, add_birthday, lift, get_book. simpl.
    unfold bind_M. rewrite Hfind, Hbad. reflexivity.
  - intros Hnone text pad_year.
    unfold Contact.change_phone, Contact.show_phone, Contact.add_birthday,
      Contact.show_birthday, get_book, said.
    simpl. unfold bind_M. rewrite Hnone. repeat split.
Qed.

Lemma invalid_format_propagates_not_found_reported_witness :
  let ann := mkRecord (lit "Ann") [mkPhone (lit "1234567890")] None in
  let w := mkWorld (add_record AddressBook_init ann) [] [] in
  Contact.add_birthday (lit "Ann") (lit "29.02.2023") w
  = (Raise (ValueError "Invalid birthday format. Use DD.MM.YYYY."), w)
  /\ Contact.add_contact (lit "Ann") (lit "12-34") w 
     = (Raise (ValueError "Phone number must be 10 or 12 digits long."), w)
  /\ Contact.show_phone (lit "Bob") w
     = (Ok tt, said w (lit "Contact not found.")).
Proof.
  intros ann w. split; [|split].
  - apply (invalid_format_propagates_not_found_reported w (lit "Ann"))
      with (record := ann); reflexivity.
  - apply (invalid_format_propagates_not_found_reported w (lit "Ann")).
    reflexivity.
  - apply (invalid_format_propagates_not_found_reported w (lit "Bob"));
      [reflexivity | exact [] | exact true].
Defined.

(** The record of the counterexample is what the class builds. *)
Lemma ann_three_phones_built :
  (r1 <- add_phone (Record_init (lit "Ann")) (lit "1111111111") ;;
   r2 <- add_phone r1 (lit "2222222222") ;;
   add_phone r2 (lit "1111111111"))
  = Ok ann_three_phones.
Proof. reflexivity. Qed.

(** C2, as the specification has it, fails: on a record whose first
    number is stored again further down, [change_phone] rewrites that
    later phone too. *)
Lemma change_phone_rewrites_later_equal_phone :
  ~ replaces_first_phone_only ann_world (lit "Ann") (lit "3333333333").
Proof.
  intros H.
  destruct (H ann_three_phones eq_refl) as (record' & Hfind & Hphones).
  vm_compute in Hfind. injection Hfind as <-.
  vm_compute in Hphones. discriminate Hphones.
Qed.

(** C2, amended.  For a record found under [key] with at least one
    phone, [change_phone] succeeds and rewrites the first phone and every
    later phone whose text equals the first phone's old text; a phone
    with another text, the name, the birthday and every other record
    stay as they were.  With no record under [key] it writes the
    not-found message. *)
Theorem change_phone_replaces_equal_phones
    (w : World) (key new_phone : str) :
  (forall record p0 rest,
     find (address_book w) key = Some record ->
     phones record = p0 :: rest ->
     let w' := snd (Contact.change_phone key new_phone w) in
     fst (Contact.change_phone key new_phone w) = Ok tt
     /\ stdout w'
        = stdout w ++ [lit "Phone number changed successfully."]
     /\ (exists record',
          find (address_book w') key = Some record'
          /\ phones record'
             = mkPhone new_phone
               :: map (edited (phone_value p0) new_phone) rest
          /\ name record' = name record
          /\ birthday record' = birthday record)
     /\ (forall other, other <> key ->
          find (address_book w') other = find (address_book w) other))
  /\ (find (address_book w) key = None ->
      Contact.change_phone key new_phone w
      = (Ok tt, said w (lit "Contact not found."))).
Proof.
  split.
  - intros record p0 rest Hfind Hphones w'. subst w'.
    unfold Contact.change_phone, store, get_book, put_book, print. simpl.
    unfold bind_M. simpl. rewrite Hfind, Hphones. simpl.
    split; [reflexivity | split; [reflexivity | split]].
    + eexists. split; [apply get_set_same|].
      unfold edit_phone. rewrite Hphones. simpl.
      rewrite eqb_refl. repeat split.
    + intros other Hother. unfold find. simpl.
      apply get_set_other. congruence.
  - intros Hnone.
    unfold Contact.change_phone, get_book, said. simpl.
    unfold bind_M. now rewrite Hnone.
Qed.

Lemma change_phone_replaces_equal_phones_witness :
  let w' := snd (Contact.change_phone (lit "Ann") (lit "3333333333")
                   ann_world) in
  (exists record',
     find (address_book w') (lit "Ann") = Some record'
     /\ phones record'
        = [mkPhone (lit "3333333333"); mkPhone (lit "2222222222");
           mkPhone (lit "3333333333")])
  /\ Contact.change_phone (lit "Bob") (lit "3333333333") ann_world
     = (Ok tt, said ann_world (lit "Contact not found.")).
Proof.
  split.
  - destruct (change_phone_replaces_equal_phones ann_world (lit "Ann")
                (lit "3333333333")) as [Hfound _].
    destruct (Hfound ann_three_phones (mkPhone (lit "1111111111"))
                [mkPhone (lit "2222222222"); mkPhone (lit "1111111111")]
                eq_refl eq_refl)
      as (_ & _ & (record' & Hfind & Hphones & _) & _).
    exists record'. split; [exact Hfind | exact Hphones].
  - apply (change_phone_replaces_equal_phones ann_world (lit "Bob")
             (lit "3333333333")).
    reflexivity.
Defined.

(** ** Invariants of the directory along the command loop *)

Lemma keeps_bind (I : AddressBook -> Prop) {A B} (m : M A) (k : A -> M B) :
  keeps I m -> (forall a, keeps I (k a)) -> keeps I (bind m k).
Proof.
  intros Hm Hk w Hw. simpl. unfold bind_M.
  specialize (Hm w Hw). destruct (m w) as [[a|e] w1]; simpl in *.
  - now apply Hk.
  - exact Hm.
Qed.

Lemma reads_only_keeps (I : AddressBook -> Prop) {A} (m : M A) :
  reads_only m -> keeps I m.
Proof. intros Hm w Hw. now rewrite Hm. Qed.

Lemma reads_only_bind {A B} (m : M A) (k : A -> M B) :
  reads_only m -> (forall a, reads_only (k a)) -> reads_only (bind m k).
Proof.
  intros Hm Hk w. simpl. unfold bind_M.
  specialize (Hm w). destruct (m w) as [[a|e] w1]; simpl in *.
  - now rewrite Hk.
  - exact Hm.
Qed.

Lemma reads_only_ret {A} (a : A) : reads_only (ret a : M A).
Proof. intros w. reflexivity. Qed.

Lemma reads_only_print (text : str) : reads_only (print text).
Proof. intros w. reflexivity. Qed.

Lemma reads_only_input (prompt : str) : reads_only (input prompt).
Proof. intros w. unfold input. now destruct (stdin w). Qed.

Lemma reads_only_lift {A} (r : result A) : reads_only (lift r).
Proof. intros w. reflexivity. Qed.

Lemma reads_only_get_book : reads_only get_book.
Proof. intros w. reflexivity. Qed.

Lemma reads_only_print_each (texts : list str) :
  reads_only (print_each texts).
Proof.
  induction texts as [|t ts IH]; simpl.
  - apply reads_only_ret.
  - apply reads_only_bind; [apply reads_only_print | intros _; exact IH].
Qed.

Create HintDb readonly.

#[local] Hint Resolve reads_only_ret reads_only_print reads_only_input
  reads_only_lift reads_only_get_book reads_only_print_each : readonly.

Ltac reads_only_steps :=
  repeat first
    [ apply reads_only_bind; [|intro]
    | solve [auto with readonly]
    | match goal with
      | |- reads_only (match ?x with _ => _ end) => destruct x
      end ].

Lemma reads_only_show_phone (name : str) :
  reads_only (Contact.show_phone name).
Proof. unfold Contact.show_phone. reads_only_steps. Qed.

Lemma reads_only_show_birthday (pad_year : bool) (name : str) :
  reads_only (Contact.show_birthday pad_year name).
Proof. unfold Contact.show_birthday. reads_only_steps. Qed.

Lemma reads_only_birthdays_this_week (today : Date.date) :
  reads_only (Contact.birthdays_this_week today).
Proof. unfold Contact.birthdays_this_week. reads_only_steps. Qed.

Lemma reads_only_list_all_contacts (pad_year : bool) :
  reads_only (Contact.list_all_contacts pad_year).
Proof. unfold Contact.list_all_contacts. reads_only_steps. Qed.

Lemma reads_only_hello : reads_only Contact.hello.
Proof. unfold Contact.hello. reads_only_steps. Qed.

(** The three commands that write to the directory store one record,
    under one key, or nothing: what they keep is what such an assignment
    keeps. *)
Lemma keeps_add_contact (I : AddressBook -> Prop) (name phone : str) :
  (forall b p, I b -> I (add_record b (mkRecord name [p] None))) ->
  keeps I (Contact.add_contact name phone).
Proof.
  intros Hset w Hw. unfold Contact.add_contact, add_phone, lift. simpl.
  unfold bind_M. simpl. destruct (Phone_init phone) as [p|e]; simpl; auto.
Qed.

Lemma keeps_change_phone (I : AddressBook -> Prop) (name new_phone : str) :
  (forall b record old_phone,
      I b -> find b name = Some record ->
      I (mkAddressBook
           (PyDict.set (data b) name
              (edit_phone record old_phone new_phone)))) ->
  keeps I (Contact.change_phone name new_phone).
Proof.
  intros Hset w Hw. unfold Contact.change_phone, get_book. simpl.
  unfold bind_M. simpl.
  destruct (find (address_book w) name) as [record|] eqn:Hfind; simpl; auto.
  destruct (phones record) as [|p0 rest] eqn:Hphones; simpl; auto.
Qed.

Lemma keeps_add_birthday (I : AddressBook -> Prop) (key birthday : str) :
  (forall b record bd,
      I b -> find b key = Some record ->
      I (mkAddressBook
           (PyDict.set (data b) key
              (mkRecord (name record) (phones record) (Some bd))))) ->
  keeps I (Contact.add_birthday key birthday).
Proof.
  intros Hset w Hw. unfold Contact.add_birthday, add_birthday, get_book, lift.
  simpl. unfold bind_M. simpl.
  destruct (find (address_book w) key) as [record|] eqn:Hfind; simpl; auto.
  destruct (Birthday_init birthday) as [b|e]; simpl; auto.
Qed.

Section LoopInvariant.

Variables str_strip str_lower : str -> str.
Variable pad_year : bool.

(** A property of the directory that the three writing commands keep. *)
Variable I : AddressBook -> Prop.
Hypothesis I_add_contact :
  forall name phone, keeps I (Contact.add_contact name phone).
Hypothesis I_change_phone :
  forall name new_phone, keeps I (Contact.change_phone name new_phone).
Hypothesis I_add_birthday :
  forall name birthday, keeps I (Contact.add_birthday name birthday).

Lemma reads_only_ask (prompt : str) : reads_only (ask str_strip prompt).
Proof. unfold ask. reads_only_steps. Qed.

Lemma keeps_loop_body (today : Date.date) :
  keeps I (loop_body str_strip str_lower pad_year today).
Proof.
  pose proof reads_only_ask as Hask.
  unfold loop_body.
  apply keeps_bind; [apply reads_only_keeps, Hask | intros line].
  repeat match goal with
  | |- keeps I (if ?c then _ else _) => destruct c
  | |- keeps I (bind _ _) => apply keeps_bind; [|intro]
  | |- keeps I (Contact.add_contact _ _) => apply I_add_contact
  | |- keeps I (Contact.change_phone _ _) => apply I_change_phone
  | |- keeps I (Contact.add_birthday _ _) => apply I_add_birthday
  | |- keeps I _ =>
      apply reads_only_keeps;
      auto using reads_only_show_phone, reads_only_show_birthday,
        reads_only_birthdays_this_week, reads_only_list_all_contacts,
        reads_only_hello with readonly
  end.
Qed.

(** Such a property, true of the empty directory, is true of every
    state in which the loop waits for a command. *)
Lemma reachable_invariant (w : World) :
  I AddressBook_init ->
  reachable str_strip str_lower pad_year w -> I (address_book w).
Proof.
  intros Hinit. induction 1 as [lines|w today w' _ IH Hturn].
  - exact Hinit.
  - pose proof (keeps_loop_body today w IH) as Hkeep.
    now rewrite Hturn in Hkeep.
Qed.

End LoopInvariant.

(** *** One phone per record *)

Lemma one_phone_each_set (b : AddressBook) (key : str) (record : Record) :
  one_phone_each b -> List.length (phones record) = 1%nat ->
  one_phone_each (mkAddressBook (PyDict.set (data b) key record)).
Proof.
  intros Hb Hr x Hx. simpl in Hx.
  apply values_set_in in Hx as [->|Hx]; auto.
Qed.

Lemma reachable_one_phone_each
    (str_strip str_lower : str -> str) (pad_year : bool) (w : World) :
  reachable str_strip str_lower pad_year w ->
  one_phone_each (address_book w).
Proof.
  apply reachable_invariant.
  - intros name phone. apply keeps_add_contact.
    intros b p Hb. now apply one_phone_each_set.
  - intros name new_phone. apply keeps_change_phone.
    intros b record old_phone Hb Hfind. apply one_phone_each_set; auto.
    unfold edit_phone; simpl. rewrite length_map.
    apply Hb. eapply get_in_values. exact Hfind.
  - intros name birthday. apply keeps_add_birthday.
    intros b record bd Hb Hfind. apply one_phone_each_set; auto. simpl.
    apply Hb. eapply get_in_values. exact Hfind.
  - intros record [].
Qed.

(** C9. In a state the command loop reaches from the empty directory,
    every stored record has exactly one phone; so [change_phone] and
    [show_phone], which read the first phone, return without raising for
    every name. *)
Theorem reachable_records_have_one_phone
    (str_strip str_lower : str -> str) (pad_year : bool) (w : World) :
  reachable str_strip str_lower pad_year w ->
  (forall record, In record (PyDict.values (data (address_book w))) ->
                  List.length (phones record) = 1%nat)
  /\ (forall name new_phone,
        fst (Contact.change_phone name new_phone w) = Ok tt)
  /\ (forall name, fst (Contact.show_phone name w) = Ok tt).
Proof.
  intros Hreach.
  pose proof (reachable_one_phone_each _ _ _ w Hreach) as Hone.
  split; [exact Hone | split].
  - intros name new_phone.
    unfold Contact.change_phone, get_book. simpl. unfold bind_M. simpl.
    destruct (find (address_book w) name) as [record|] eqn:Hfind;
      [|reflexivity].
    pose proof (Hone record (get_in_values _ _ _ Hfind)) as Hlen.
    destruct (phones record); [discriminate Hlen | reflexivity].
  - intros name.
    unfold Contact.show_phone, get_book. simpl. unfold bind_M. simpl.
    destruct (find (address_book w) name) as [record|] eqn:Hfind;
      [|reflexivity].
    pose proof (Hone record (get_in_values _ _ _ Hfind)) as Hlen.
    destruct (phones record); [discriminate Hlen | reflexivity].
Qed.

Lemma reachable_records_have_one_phone_witness :
  let same := fun s : str => s in
  let w := snd (loop_body same same true (Date.mkdate 2023 11 4)
                  (Contact.init [lit "add"; lit "Ann"; lit "1234567890"])) in
  find (address_book w) (lit "Ann")
  = Some (mkRecord (lit "Ann") [mkPhone (lit "1234567890")] None)
  /\ fst (Contact.change_phone (lit "Ann") (lit "0987654321") w) = Ok tt
  /\ fst (Contact.show_phone (lit "Ann") w) = Ok tt.
Proof.
  intros same w.
  assert (Hreach : reachable same same true w).
  { apply reach_turn with (today := Date.mkdate 2023 11 4)
      (w := Contact.init [lit "add"; lit "Ann"; lit "1234567890"]);
      [apply reach_start | vm_compute; reflexivity]. }
  destruct (reachable_records_have_one_phone same same true w Hreach)
    as (_ & Hchange & Hshow).
  split; [reflexivity | split; [apply Hchange | apply Hshow]].
Defined.

(** ** The directory *)

Lemma built_one_record_per_name (b : AddressBook) :
  built b -> one_record_per_name b.
Proof.
  unfold one_record_per_name.
  induction 1 as [|b r _ IH|b n _ IH]; simpl.
  - constructor.
  - now apply NoDup_keys_set.
  - unfold delete_record. destruct (PyDict.contains (data b) n); simpl; auto.
    now apply NoDup_keys_del.
Qed.

Lemma reachable_one_record_per_name
    (str_strip str_lower : str -> str) (pad_year : bool) (w : World) :
  reachable str_strip str_lower pad_year w ->
  one_record_per_name (address_book w).
Proof.
  apply reachable_invariant.
  - intros name phone. apply keeps_add_contact.
    intros b p Hb. now apply NoDup_keys_set.
  - intros name new_phone. apply keeps_change_phone.
    intros b record old_phone Hb _. now apply NoDup_keys_set.
  - intros name birthday. apply keeps_add_birthday.
    intros b record bd Hb _. now apply NoDup_keys_set.
  - constructor.
Qed.

(** C7. After [add_record r], [find] under [r]'s name returns a record of
    that name ([r] itself); a second record added under the same name
    takes the place of the first, the directory being what it would be
    had the first never been added; and no name is held twice, neither
    by a directory built by adding and deleting records nor in a state
    the command loop reaches. *)
Theorem add_record_find_last_wins (b : AddressBook) (r : Record) :
  (exists r', find (add_record b r) (name r) = Some r' /\ name r' = name r)
  /\ (forall r2, name r2 = name r ->
        find (add_record (add_record b r) r2) (name r) = Some r2
        /\ add_record (add_record b r) r2 = add_record b r2)
  /\ (built b -> one_record_per_name b
                 /\ one_record_per_name (add_record b r))
  /\ (forall str_strip str_lower pad_year w,
        reachable str_strip str_lower pad_year w ->
        one_record_per_name (address_book w)).
Proof.
  split; [|split; [|split]]; [| | |apply reachable_one_record_per_name].
  - exists r. split; [|reflexivity].
    unfold find, add_record; simpl. apply get_set_same.
  - intros r2 Hname. unfold find, add_record; simpl.
    rewrite Hname, set_set. split; [apply get_set_same | reflexivity].
  - intros Hb. split.
    + now apply built_one_record_per_name.
    + apply built_one_record_per_name. now constructor.
Qed.

Lemma add_record_find_last_wins_witness :
  let ann1 := mkRecord (lit "Ann") [mkPhone (lit "1234567890")] None in
  let ann2 := mkRecord (lit "Ann") [mkPhone (lit "0987654321")] None in
  let bob := mkRecord (lit "Bob") [mkPhone (lit "5555555555")] None in
  let b := add_record AddressBook_init bob in
  let same := fun s : str => s in
  let w := snd (loop_body same same true (Date.mkdate 2023 11 4)
                  (Contact.init [lit "add"; lit "Ann"; lit "1234567890"])) in
  find (add_record (add_record b ann1) ann2) (lit "Ann") = Some ann2
  /\ PyDict.keys (data (add_record (add_record b ann1) ann2))
     = [lit "Bob"; lit "Ann"]
  /\ one_record_per_name (add_record b ann1)
  /\ one_record_per_name (address_book w).
Proof.
  intros ann1 ann2 bob b same w.
  destruct (add_record_find_last_wins b ann1)
    as (_ & Hsecond & Hbuilt & Hloop).
  split; [|split; [|split]].
  - apply (Hsecond ann2). reflexivity.
  - reflexivity.
  - apply Hbuilt. repeat constructor.
  - apply (Hloop same same true).
    apply reach_turn with (today := Date.mkdate 2023 11 4)
      (w := Contact.init [lit "add"; lit "Ann"; lit "1234567890"]);
      [apply reach_start | vm_compute; reflexivity].
Defined.

(** ** Birthdays of the coming week *)

Lemma bucket_append_to (d : PyDict.dict (list str)) (k k' x : str) :
  bucket (PyDict.append_to d k x) k'
  = if PyStr.eqb k k' then bucket d k' ++ [x] else bucket d k'.
Proof.
  unfold PyDict.append_to, bucket.
  destruct (eqb_spec k k') as [<-|Hk].
  - destruct (PyDict.get d k); now rewrite get_set_same.
  - destruct (PyDict.get d k); now rewrite get_set_other.
Qed.

Lemma set_items_in {V} (d : PyDict.dict V) (k : str) (v : V) (kv : str * V) :
  In kv (PyDict.set d k v) -> snd kv = v \/ In kv d.
Proof.
  induction d as [|[k0 v0] d IH]; simpl.
  - intros [<-|[]]. now left.
  - destruct (PyStr.eqb k0 k); simpl.
    + intros [<-|H]; auto.
    + intros [<-|H]; auto. destruct (IH H); auto.
Qed.

Lemma no_empty_bucket_append_to (d : PyDict.dict (list str)) (k x : str) :
  no_empty_bucket d -> no_empty_bucket (PyDict.append_to d k x).
Proof.
  intros Hd day names Hin. unfold PyDict.append_to in Hin.
  destruct (PyDict.get d k) as [l|];
    apply set_items_in in Hin as [Heq|Hin];
    try (eapply Hd; eassumption);
    simpl in Heq; subst names; intros Hnil;
    first [ discriminate Hnil
          | apply app_eq_nil in Hnil as [_ Hnil]; discriminate Hnil ].
Qed.

Lemma NoDup_keys_append_to (d : PyDict.dict (list str)) (k x : str) :
  NoDup (PyDict.keys d) -> NoDup (PyDict.keys (PyDict.append_to d k x)).
Proof.
  intros Hd. unfold PyDict.append_to.
  destruct (PyDict.get d k); now apply NoDup_keys_set.
Qed.

Lemma per_record_listed (today owa : Date.date)
    (acc acc' : PyDict.dict (list str)) (record : Record) :
  per_record today owa acc record = Ok acc' ->
  (forall day n, In n (bucket acc' day) <->
                 In n (bucket acc day) \/ listed today owa record day n)
  /\ (no_empty_bucket acc -> no_empty_bucket acc')
  /\ (NoDup (PyDict.keys acc) -> NoDup (PyDict.keys acc')).
Proof.
  unfold per_record, listed.
  destruct (birthday record) as [b|] eqn:Hb.
  2:{ intros [= <-]. split; [|auto]. intros day n. split; auto.
      intros [H|(? & ? & ? & H & _)]; [auto | discriminate]. }
  destruct (birthday_date b) as [born|] eqn:Hborn; [|discriminate].
  simpl. unfold bind_result.
  destruct (occurrence today born) as [occ|e] eqn:Hocc; [|discriminate].
  destruct (Date.leb today occ) eqn:H1; simpl.
  1: destruct (Date.leb occ owa) eqn:H2.
  - intros [= <-]. split; [|split].
    + intros day n. rewrite bucket_append_to.
      destruct (eqb_spec (birthday_weekday occ) day) as [<-|Hday].
      * rewrite in_app_iff. simpl. split.
        -- intros [H|[<-|[]]]; auto. right.
           exists b, born, occ. repeat split; auto.
        -- intros [H|(b0 & born0 & occ0 & E1 & E2 & E3 & _ & _ & _ & ->)];
             auto.
      * split; auto.
        intros [H|(b0 & born0 & occ0 & E1 & E2 & E3 & _ & _ & E4 & _)];
          auto.
        injection E1 as <-. rewrite Hborn in E2. injection E2 as <-.
        rewrite Hocc in E3. injection E3 as <-. congruence.
    + apply no_empty_bucket_append_to.
    + apply NoDup_keys_append_to.
  - intros [= <-]. split; [|auto]. intros day n. split; auto.
    intros [H|(b0 & born0 & occ0 & E1 & E2 & E3 & _ & E5 & _)]; auto.
    injection E1 as <-. rewrite Hborn in E2. injection E2 as <-.
    rewrite Hocc in E3. injection E3 as <-. congruence.
  - intros [= <-]. split; [|auto]. intros day n. split; auto.
    intros [H|(b0 & born0 & occ0 & E1 & E2 & E3 & E4 & _)]; auto.
    injection E1 as <-. rewrite Hborn in E2. injection E2 as <-.
    rewrite Hocc in E3. injection E3 as <-. congruence.
Qed.

Lemma for_each_listed (today owa : Date.date) (records : list Record) :
  forall acc result,
    for_each (per_record today owa) records acc = Ok result ->
    (forall day n,
        In n (bucket result day) <->
        In n (bucket acc day)
        \/ exists record, In record records
                          /\ listed today owa record day n)
    /\ (no_empty_bucket acc -> no_empty_bucket result)
    /\ (NoDup (PyDict.keys acc) -> NoDup (PyDict.keys result)).
Proof.
  induction records as [|record records IH]; simpl; intros acc result.
  - intros [= <-]. split; [|auto]. intros day n. split; auto.
    intros [H|(? & [] & _)]; auto.
  - unfold bind_result.
    destruct (per_record today owa acc record) as [acc1|e] eqn:Hstep;
      [|discriminate].
    intros Hrest.
    destruct (per_record_listed _ _ _ _ _ Hstep) as (Hin1 & Hne1 & Hnd1).
    destruct (IH _ _ Hrest) as (Hin2 & Hne2 & Hnd2).
    split; [|auto]. intros day n. rewrite Hin2, Hin1. split.
    + intros [[H|H]|(r & Hr & H)]; eauto 6.
    + intros [H|(r & [<-|Hr] & H)]; eauto 6.
Qed.

(** Whenever [get_birthdays_per_week] returns, what it returns is what
    the specification describes: a name is under a day exactly for the
    records to be listed there, no key has an empty list, and no day is
    a key twice. *)
Lemma get_birthdays_per_week_returns_buckets
    (self : AddressBook) (today : Date.date)
    (result : PyDict.dict (list str)) :
  get_birthdays_per_week self today = Ok result ->
  exists one_week_ahead,
    Date.add_days today 7 = Ok one_week_ahead
    /\ (forall day n,
          In n (bucket result day) <->
          exists record, In record (PyDict.values (data self))
                         /\ listed today one_week_ahead record day n)
    /\ (forall day names, In (day, names) result -> names <> [])
    /\ NoDup (PyDict.keys result).
Proof.
  unfold get_birthdays_per_week. simpl. unfold bind_result.
  destruct (Date.add_days today 7) as [owa|e]; [|discriminate].
  intros Hloop. exists owa. split; [reflexivity|].
  destruct (for_each_listed _ _ _ _ _ Hloop) as (Hin & Hne & Hnd).
  split; [|split].
  - intros day n. rewrite Hin. simpl. intuition.
  - apply Hne. intros day names [].
  - apply Hnd. constructor.
Qed.

(** The weekday of a listing: Saturday and Sunday go under Monday, the
    other days under their own name. *)
Lemma birthday_weekday_names (d : Date.date) :
  birthday_weekday d
  = if (Date.weekday d =? 5) || (Date.weekday d =? 6) then lit "Monday"
    else lit (nth (Z.to_nat (Date.weekday d))
                ["Monday"; "Tuesday"; "Wednesday"; "Thursday"; "Friday"]%string
                ""%string).
Proof.
  unfold birthday_weekday, Date.strftime_A.
  assert (H : 0 <= Date.weekday d < 7)
    by (unfold Date.weekday; apply Z.mod_pos_bound; lia).
  destruct (Z.geb_spec (Date.weekday d) 5) as [Hge|Hlt].
  - assert (Date.weekday d = 5 \/ Date.weekday d = 6) as [->| ->] by lia;
      reflexivity.
  - assert (Date.weekday d = 0 \/ Date.weekday d = 1 \/ Date.weekday d = 2
            \/ Date.weekday d = 3 \/ Date.weekday d = 4)
      as [->|[->|[->|[->| ->]]]] by lia; reflexivity.
Qed.

(** *** When the query returns *)

Lemma valid_fields (d : Date.date) :
  Date.valid d = true ->
  1 <= Date.year d <= 9999 /\ 1 <= Date.month d <= 12
  /\ 1 <= Date.day d <= Date.days_in_month (Date.year d) (Date.month d).
Proof.
  unfold Date.valid, Date.check_date_fields, Date.MINYEAR, Date.MAXYEAR.
  destruct (Z.leb_spec 1 (Date.year d)); simpl; [|discriminate].
  destruct (Z.leb_spec (Date.year d) 9999); simpl; [|discriminate].
  destruct (Z.leb_spec 1 (Date.month d)); simpl; [|discriminate].
  destruct (Z.leb_spec (Date.month d) 12); simpl; [|discriminate].
  destruct (Z.leb_spec 1 (Date.day d)); simpl; [|discriminate].
  destruct (Z.leb_spec (Date.day d)
              (Date.days_in_month (Date.year d) (Date.month d)));
    simpl; [|discriminate].
  lia.
Qed.

Lemma new_ok (y m d : Z) :
  1 <= y <= 9999 -> 1 <= m <= 12 -> 1 <= d <= Date.days_in_month y m ->
  Date.new y m d = Ok (Date.mkdate y m d).
Proof.
  intros Hy Hm Hd.
  unfold Date.new, Date.check_date_fields, Date.MINYEAR, Date.MAXYEAR.
  destruct (Z.leb_spec 1 y); [|lia].
  destruct (Z.leb_spec y 9999); [|lia].
  destruct (Z.leb_spec 1 m); [|lia].
  destruct (Z.leb_spec m 12); [|lia].
  destruct (Z.leb_spec 1 d); [|lia].
  destruct (Z.leb_spec d (Date.days_in_month y m)); [|lia].
  reflexivity.
Qed.

(** Outside the 29th of February a day of the month exists in every
    year. *)
Lemma days_in_month_other_year (y0 y m d : Z) :
  1 <= m <= 12 -> d <= Date.days_in_month y0 m ->
  (m =? 2) && (d =? 29) = false ->
  d <= Date.days_in_month y m.
Proof.
  intros Hm Hd Hfeb.
  assert (Hcases : m = 1 \/ m = 2 \/ m = 3 \/ m = 4 \/ m = 5 \/ m = 6
                   \/ m = 7 \/ m = 8 \/ m = 9 \/ m = 10 \/ m = 11 \/ m = 12)
    by lia.
  unfold Date.days_in_month in *.
  destruct Hcases as [->|[->|[->|[->|[->|[->|[->|[->|[->|[->|[->| ->]]]]]]]]]]];
    simpl in *; try exact Hd.
  destruct (Z.eqb_spec d 29); [discriminate|].
  destruct (Date.is_leap y0), (Date.is_leap y); simpl in *; lia.
Qed.

Lemma replace_year_ok (born : Date.date) (y : Z) :
  Date.valid born = true ->
  (Date.month born =? 2) && (Date.day born =? 29) = false ->
  1 <= y <= 9999 ->
  Date.replace_year born y
  = Ok (Date.mkdate y (Date.month born) (Date.day born)).
Proof.
  intros Hvalid Hfeb Hy.
  destruct (valid_fields born Hvalid) as (_ & Hm & Hd).
  unfold Date.replace_year. apply new_ok; auto.
  split; [lia|].
  apply (days_in_month_other_year (Date.year born)); auto; lia.
Qed.

Lemma occurrence_ok (today born : Date.date) :
  Date.valid born = true ->
  (Date.month born =? 2) && (Date.day born =? 29) = false ->
  1 <= Date.year today < 9999 ->
  exists occ, occurrence today born = Ok occ.
Proof.
  intros Hvalid Hfeb Hy. unfold occurrence.
  rewrite (replace_year_ok born (Date.year today)) by (auto; lia).
  simpl. unfold bind_result.
  match goal with |- context [if ?c then _ else _] => destruct c end.
  - unfold Date.replace_year; simpl.
    fold (Date.replace_year born (Date.year today + 1)).
    rewrite replace_year_ok by (auto; lia). eauto.
  - eauto.
Qed.

Lemma toordinal_bounds (d : Date.date) :
  Date.valid d = true -> Date.year d < 9999 ->
  0 < Date.toordinal d + 7 <= Date.MAXORDINAL.
Proof.
  intros Hvalid Hyear.
  destruct (valid_fields d Hvalid) as (Hy & Hm & Hd).
  assert (Hdim : Date.days_in_month (Date.year d) (Date.month d) <= 31).
  { unfold Date.days_in_month.
    destruct ((Date.month d =? 2) && Date.is_leap (Date.year d)); [lia|].
    assert (Hc : Date.month d = 1 \/ Date.month d = 2 \/ Date.month d = 3
                 \/ Date.month d = 4 \/ Date.month d = 5 \/ Date.month d = 6
                 \/ Date.month d = 7 \/ Date.month d = 8 \/ Date.month d = 9
                 \/ Date.month d = 10 \/ Date.month d = 11
                 \/ Date.month d = 12) by lia.
    destruct Hc as [->|[->|[->|[->|[->|[->|[->|[->|[->|[->|[->| ->]]]]]]]]]]];
      simpl; lia. }
  assert (Hdbm : 0 <= Date.days_before_month (Date.year d) (Date.month d)
                 <= 335).
  { unfold Date.days_before_month.
    assert (Hc : Date.month d = 1 \/ Date.month d = 2 \/ Date.month d = 3
                 \/ Date.month d = 4 \/ Date.month d = 5 \/ Date.month d = 6
                 \/ Date.month d = 7 \/ Date.month d = 8 \/ Date.month d = 9
                 \/ Date.month d = 10 \/ Date.month d = 11
                 \/ Date.month d = 12) by lia.
    destruct Hc as [->|[->|[->|[->|[->|[->|[->|[->|[->|[->|[->| ->]]]]]]]]]]];
      simpl; destruct (Date.is_leap (Date.year d)); simpl; lia. }
  unfold Date.toordinal, Date.ymd2ord, Date.days_before_year,
    Date.MAXORDINAL.
  cbv zeta.
  set (y' := Date.year d - 1) in *.
  assert (0 <= y' <= 9997) by (subst y'; lia).
  assert (y' / 100 <= y' / 4).
  { apply Z.div_le_compat_l; lia. }
  assert (0 <= y' / 400) by (apply Z.div_pos; lia).
  assert (y' / 4 < 2500) by (apply Z.div_lt_upper_bound; lia).
  assert (0 <= y' / 100) by (apply Z.div_pos; lia).
  assert (y' / 400 < 25) by (apply Z.div_lt_upper_bound; lia).
  lia.
Qed.

(** With the birthdays all of the calendar and none on the 29th of
    February, and the year after today's within the calendar's range,
    [get_birthdays_per_week] returns. *)
Lemma get_birthdays_per_week_returns
    (self : AddressBook) (today : Date.date) :
  Date.valid today = true -> Date.year today < 9999 ->
  plain_birthdays self ->
  exists result, get_birthdays_per_week self today = Ok result.
Proof.
  intros Hvalid Hyear Hplain.
  unfold get_birthdays_per_week, Date.add_days. simpl. unfold bind_result.
  pose proof (toordinal_bounds today Hvalid Hyear) as [Hlo Hhi].
  destruct (Z.ltb_spec 0 (Date.toordinal today + 7)); [|lia].
  destruct (Z.leb_spec (Date.toordinal today + 7) Date.MAXORDINAL); [|lia].
  simpl.
  set (owa := Date.ord2ymd (Date.toordinal today + 7)).
  unfold plain_birthdays in Hplain.
  generalize (@PyDict.empty (list str)).
  induction (PyDict.values (data self)) as [|record records IH];
    intros acc; simpl.
  - eauto.
  - unfold bind_result.
    assert (Hstep : exists acc', per_record today owa acc record = Ok acc').
    { unfold per_record.
      destruct (birthday record) as [bd|] eqn:Hbd; [|eauto].
      destruct (Hplain record bd (or_introl eq_refl) Hbd)
        as (born & -> & Hv & Hfeb).
      destruct (valid_fields today Hvalid) as (Hy & _).
      destruct (occurrence_ok today born Hv Hfeb) as [occ ->]; [lia|].
      simpl.
      match goal with |- context [if ?c then _ else _] => destruct c end;
        eauto. }
    destruct Hstep as [acc' ->].
    apply IH. intros r bd Hr. apply Hplain. now right.
Qed.

(** *** A birthday on the 29th of February *)

(** The records of the examples are what the constructors build. *)
Lemma examples_built :
  Birthday_init (lit "29.02.2024") = Ok leap_day
  /\ Birthday_init (lit "05.11.1990") = Ok fifth_of_november
  /\ Date.valid (Date.mkdate 2024 2 29) = true
  /\ Date.valid a_saturday = true
  /\ Date.weekday a_saturday = 5.
Proof. repeat split. Qed.

(** C3.  The query does not return for a birthday on the 29th of
    February when today's year is a common year: with Ann's birthday
    the valid date 29.02.2024 and today the 4th of November 2023,
    [replace(year=2023)] raises [ValueError] out of
    [get_birthdays_per_week]; the command loop, given the commands that
    store that birthday and then [birthdays], ends on the same
    exception. *)
Theorem leap_day_birthday_raises_in_common_year :
  Birthday_init (lit "29.02.2024") = Ok leap_day
  /\ Date.valid (Date.mkdate 2024 2 29) = true
  /\ Date.is_leap 2023 = false
  /\ get_birthdays_per_week book_ann a_saturday
     = Raise (ValueError "day is out of range for month")
  /\ fst (main (fun s => s) (fun s => s) true
            [lit "add"; lit "Ann"; lit "1234567890";
             lit "add-birthday"; lit "Ann"; lit "29.02.2024";
             lit "birthdays"]
            [a_saturday; a_saturday; a_saturday])
     = Raise (ValueError "day is out of range for month").
Proof. repeat split. Qed.

(** The same exception in a leap year, once the 29th of February is
    past: rolling to next year asks for the 29th of February 2025. *)
Lemma leap_day_birthday_raises_after_leap_day :
  get_birthdays_per_week book_ann (Date.mkdate 2024 3 1)
  = Raise (ValueError "day is out of range for month").
Proof. reflexivity. Qed.

(** A [Birthday] built from the empty text has no date, and the query
    raises on it as well. *)
Lemma empty_birthday_raises :
  Birthday_init [] = Ok (mkBirthday [] None)
  /\ get_birthdays_per_week
       (add_record AddressBook_init
          (mkRecord (lit "Ann") [] (Some (mkBirthday [] None))))
       a_saturday
     = Raise (AttributeError "'NoneType' object has no attribute 'replace'").
Proof. split; reflexivity. Qed.

(** C1.  In the directory that the commands adding Bob, born on the 5th
    of November, and Ann, born on the 29th of February, leave, Bob is to
    be listed under Monday on Saturday the 4th of November 2023 (the 5th
    is a Sunday), and he is listed when he is alone in the directory;
    with Ann there as well the query raises and lists nobody. *)
Theorem leap_day_birthday_hides_listed_contact :
  address_book
    (snd (main (fun s => s) (fun s => s) true
            [lit "add"; lit "Bob"; lit "0987654321";
             lit "add-birthday"; lit "Bob"; lit "05.11.1990";
             lit "add"; lit "Ann"; lit "1234567890";
             lit "add-birthday"; lit "Ann"; lit "29.02.2024"]
            [a_saturday; a_saturday; a_saturday; a_saturday]))
  = book_bob_ann
  /\ In bob (PyDict.values (data book_bob_ann))
  /\ Date.add_days a_saturday 7 = Ok (Date.mkdate 2023 11 11)
  /\ listed a_saturday (Date.mkdate 2023 11 11) bob (lit "Monday") (lit "Bob")
  /\ get_birthdays_per_week book_bob a_saturday
     = Ok [(lit "Monday", [lit "Bob"])]
  /\ get_birthdays_per_week book_bob_ann a_saturday
     = Raise (ValueError "day is out of range for month").
Proof.
  split; [reflexivity|].
  split; [now left | split; [reflexivity | split; [|split; reflexivity]]].
  exists fifth_of_november, (Date.mkdate 1990 11 5), (Date.mkdate 2023 11 5).
  repeat split.
Qed.

(** ** Birthday texts *)

(** *** What the pattern accepts *)

Lemma in_two (p q : char -> bool) (s c r : str) :
  In (c, r) (Strptime.two p q s) ->
  exists c1 c2, c = [c1; c2] /\ s = c ++ r /\ p c1 = true /\ q c2 = true.
Proof.
  unfold Strptime.two. destruct s as [|c1 [|c2 s]]; try (intros []).
  destruct (p c1) eqn:Hp; [|intros []].
  destruct (q c2) eqn:Hq; [|intros []].
  intros [[= <- <-]|[]]. exists c1, c2. auto.
Qed.

Lemma in_one (p : char -> bool) (s c r : str) :
  In (c, r) (Strptime.one p s) ->
  exists c1, c = [c1] /\ s = c ++ r /\ p c1 = true.
Proof.
  unfold Strptime.one. destruct s as [|c1 s]; try (intros []).
  destruct (p c1) eqn:Hp; [|intros []].
  intros [[= <- <-]|[]]. exists c1. auto.
Qed.

Lemma between_ascii_digit (lo hi : ascii) (c : char) :
  48 <= Strptime.ch lo -> Strptime.ch hi <= 57 ->
  Strptime.between lo hi c = true -> ascii_digit c = true.
Proof.
  unfold Strptime.between, ascii_digit. intros Hlo Hhi H.
  apply andb_true_iff in H as [H1 H2].
  apply Z.leb_le in H1, H2. apply andb_true_iff.
  split; apply Z.leb_le; lia.
Qed.

Lemma is_char_eq (a : ascii) (c : char) :
  Strptime.is_char a c = true -> c = Strptime.ch a.
Proof. unfold Strptime.is_char. apply Z.eqb_eq. Qed.

Ltac ascii_between :=
  match goal with
  | H : Strptime.between _ _ ?c = true |- ascii_digit ?c = true =>
      apply (between_ascii_digit _ _ _) in H;
      [exact H | vm_compute; discriminate | vm_compute; discriminate]
  | H : Strptime.is_char _ ?c = true |- ascii_digit ?c = true =>
      apply is_char_eq in H; subst c; reflexivity
  end.

Lemma in_re_d (s c r : str) :
  In (c, r) (Strptime.re_d s) -> s = c ++ r /\ day_text c.
Proof.
  unfold Strptime.re_d, day_text. rewrite !in_app_iff.
  intros [H|[H|[H|[H|H]]]];
    first [ apply in_two in H as (c1 & c2 & -> & -> & H1 & H2)
          | apply in_one in H as (c1 & -> & -> & H1) ];
    (split; [reflexivity|]).
  1-4: left; (split; [simpl; lia|]);
       repeat (apply Forall_cons || apply Forall_nil);
       first [ assumption | apply ascii_digit_isdecimal; ascii_between ].
  right. exists c2. apply is_char_eq in H1. subst c1.
  split; [reflexivity|]. apply ascii_digit_isdecimal. ascii_between.
Qed.

Lemma in_re_m (s c r : str) :
  In (c, r) (Strptime.re_m s) ->
  s = c ++ r /\ (1 <= List.length c <= 2)%nat
  /\ Forall (fun x => ascii_digit x = true) c.
Proof.
  unfold Strptime.re_m. rewrite !in_app_iff.
  intros [H|[H|H]];
    first [ apply in_two in H as (c1 & c2 & -> & -> & H1 & H2)
          | apply in_one in H as (c1 & -> & -> & H1) ];
    (split; [reflexivity | split; [simpl; lia|]]);
    repeat (apply Forall_cons || apply Forall_nil); ascii_between.
Qed.

Lemma in_re_Y (s c r : str) :
  In (c, r) (Strptime.re_Y s) ->
  s = c ++ r /\ List.length c = 4%nat
  /\ Forall (fun x => char_isdecimal x = true) c.
Proof.
  unfold Strptime.re_Y.
  destruct s as [|y1 [|y2 [|y3 [|y4 s]]]]; try (intros []).
  destruct (_ && _) eqn:H; [|intros []].
  intros [[= <- <-]|[]].
  repeat (apply andb_true_iff in H as [H ?]).
  repeat split; repeat constructor; assumption.
Qed.

Lemma in_re_dot (s r : str) : In r (Strptime.re_dot s) -> s = [46] ++ r.
Proof.
  unfold Strptime.re_dot. destruct s as [|c s]; [intros []|].
  destruct (Strptime.is_char "." c) eqn:H; [|intros []].
  apply is_char_eq in H. subst c. intros [<-|[]]. reflexivity.
Qed.

Lemma in_matches (s dt mt yt rest : str) :
  In (dt, mt, yt, rest) (Strptime.matches s) ->
  s = dt ++ [46] ++ mt ++ [46] ++ yt ++ rest
  /\ day_text dt
  /\ (1 <= List.length mt <= 2)%nat
  /\ Forall (fun c => ascii_digit c = true) mt
  /\ List.length yt = 4%nat
  /\ Forall (fun c => char_isdecimal c = true) yt.
Proof.
  unfold Strptime.matches.
  intros H.
  apply in_flat_map in H as ([d r0] & Hd & H).
  apply in_flat_map in H as (r1 & Hdot1 & H).
  apply in_flat_map in H as ([m r2] & Hm & H).
  apply in_flat_map in H as (r3 & Hdot2 & H).
  apply in_map_iff in H as ([y r4] & Heq & Hy).
  simpl in *. injection Heq as <- <- <- <-.
  apply in_re_d in Hd as (-> & Hd1).
  apply in_re_dot in Hdot1 as ->.
  apply in_re_m in Hm as (-> & Hm1 & Hm2).
  apply in_re_dot in Hdot2 as ->.
  apply in_re_Y in Hy as (-> & Hy1 & Hy2).
  repeat split; auto; lia.
Qed.

Lemma new_valid (y m d : Z) (x : Date.date) :
  Date.new y m d = Ok x -> x = Date.mkdate y m d /\ Date.valid x = true.
Proof.
  unfold Date.new, Date.valid.
  destruct (Date.check_date_fields y m d) eqn:Hchk; [|discriminate].
  intros [= <-]. simpl. now rewrite Hchk.
Qed.

(** An accepted text has the shape [day_month_year]. *)
Lemma Birthday_init_shape (s : str) (b : Birthday) :
  s <> [] -> Birthday_init s = Ok b ->
  exists d, b = mkBirthday s (Some d) /\ day_month_year s d.
Proof.
  intros Hs. unfold Birthday_init.
  destruct s as [|c0 s0]; [congruence|]. simpl truthy. cbv iota.
  set (s := c0 :: s0) in *. unfold Strptime.strptime_dmY.
  destruct (Strptime.matches s) as [|[[[dt mt] yt] rest] others] eqn:Hm;
    [discriminate|].
  assert (Hin : In (dt, mt, yt, rest) (Strptime.matches s))
    by (rewrite Hm; now left).
  apply in_matches in Hin as (Heq & Hd1 & Hm1 & Hm2 & Hy1 & Hy2).
  destruct rest as [|c rest]; simpl truthy; cbv iota; [|discriminate].
  destruct (Date.new (int yt) (int mt) (int dt)) as [d|[]] eqn:Hnew;
    try discriminate.
  intros [= <-]. exists d. split; [reflexivity|].
  exists dt, mt, yt. rewrite app_nil_r in Heq.
  apply new_valid in Hnew as [-> Hvalid].
  repeat split; auto; apply Hm1.
Qed.

(** C5, as the specification has it, fails: the day and the month may
    be written with one digit. *)
Lemma Birthday_init_accepts_one_digit_day :
  ~ refused_unless_dd_mm_yyyy (lit "1.2.2024").
Proof.
  intros H.
  assert (Hne : lit "1.2.2024" <> []) by discriminate.
  specialize (H Hne eq_refl). vm_compute in H. discriminate H.
Qed.

(** C5, amended.  A text that is not empty is refused with the
    [ValueError] of the constructor unless it reads day.month.year with
    a day of one or two characters (digits, or a blank before a single
    digit), a month of one or two ASCII digits and a year of four
    digits, a digit of the day or the year being any Unicode decimal
    digit, and names a day of the calendar.  "29.02.2024" is accepted;
    "29.02.2023" and "31.02.2024" are refused. *)
Theorem Birthday_init_accepts_only_dates :
  (forall s b, s <> [] -> Birthday_init s = Ok b ->
     exists d, b = mkBirthday s (Some d) /\ day_month_year s d)
  /\ (forall s, is_ok (Birthday_init s) = false ->
        Birthday_init s
        = Raise (ValueError "Invalid birthday format. Use DD.MM.YYYY."))
  /\ Birthday_init (lit "29.02.2024")
     = Ok (mkBirthday (lit "29.02.2024") (Some (Date.mkdate 2024 2 29)))
  /\ Birthday_init (lit "29.02.2023")
     = Raise (ValueError "Invalid birthday format. Use DD.MM.YYYY.")
  /\ Birthday_init (lit "31.02.2024")
     = Raise (ValueError "Invalid birthday format. Use DD.MM.YYYY.").
Proof.
  split; [|split; [|repeat split]].
  - intros s b. apply Birthday_init_shape.
  - apply Birthday_init_raises.
Qed.

Lemma Birthday_init_accepts_only_dates_witness :
  (exists d, Birthday_init (lit "1.2.2024")
             = Ok (mkBirthday (lit "1.2.2024") (Some d))
             /\ day_month_year (lit "1.2.2024") d
             /\ d = Date.mkdate 2024 2 1)
  /\ Birthday_init (lit "2024-02-01")
     = Raise (ValueError "Invalid birthday format. Use DD.MM.YYYY.").
Proof.
  destruct Birthday_init_accepts_only_dates as (Hshape & Hraise & _).
  split.
  - destruct (Hshape (lit "1.2.2024")
                (mkBirthday (lit "1.2.2024") (Some (Date.mkdate 2024 2 1))))
      as (d & Hb & Hd); [discriminate | reflexivity |].
    injection Hb as <-. exists (Date.mkdate 2024 2 1). auto.
  - apply (Hraise (lit "2024-02-01")). reflexivity.
Defined.

(** A blank after the digit of the day is not of the shape, and such a
    text is refused. *)
Lemma blank_after_the_day_is_refused :
  (forall d, ~ day_month_year (lit "1 .02.2024") d)
  /\ Birthday_init (lit "1 .02.2024")
     = Raise (ValueError "Invalid birthday format. Use DD.MM.YYYY.").
Proof.
  split; [|reflexivity].
  intros d (dt & mt & yt & Heq & Hday & _).
  change (lit "1 .02.2024") with [49; 32; 46; 48; 50; 46; 50; 48; 50; 52]
    in Heq.
  destruct Hday as [[Hlen Hall]|(c & -> & _)].
  - destruct dt as [|a [|b [|? ?]]]; simpl in Hlen; try lia.
    + simpl in Heq. discriminate Heq.
    + simpl in Heq. injection Heq as <- <- _.
      inversion Hall as [|? ? _ Hrest]; subst.
      inversion Hrest as [|? ? Hblank _]; subst. discriminate Hblank.
  - simpl in Heq. discriminate Heq.
Qed.

(** *** Texts written DD.MM.YYYY *)

Lemma ascii_digit_range (c : char) :
  ascii_digit c = true <-> 48 <= c <= 57.
Proof.
  unfold ascii_digit. rewrite andb_true_iff, !Z.leb_le. tauto.
Qed.

Ltac digit_cases c :=
  let H := fresh "Hc" in
  assert (H : c = 48 \/ c = 49 \/ c = 50 \/ c = 51 \/ c = 52 \/ c = 53
              \/ c = 54 \/ c = 55 \/ c = 56 \/ c = 57) by lia;
  destruct H as [->|[->|[->|[->|[->|[->|[->|[->|[->| ->]]]]]]]]].

Lemma re_d_two_digits (d1 d2 : char) (r : str) :
  ascii_digit d1 = true -> ascii_digit d2 = true ->
  1 <= 10 * digit_value d1 + digit_value d2 <= 31 ->
  Strptime.re_d (d1 :: d2 :: r)
  = ([d1; d2], r)
    :: (if Strptime.between "1" "9" d1 then [([d1], d2 :: r)] else []).
Proof.
  rewrite !ascii_digit_range. unfold digit_value. intros H1 H2 Hday.
  digit_cases d1; try lia; digit_cases d2; try lia; reflexivity.
Qed.

Lemma re_m_two_digits (m1 m2 : char) (r : str) :
  ascii_digit m1 = true -> ascii_digit m2 = true ->
  1 <= 10 * digit_value m1 + digit_value m2 <= 12 ->
  Strptime.re_m (m1 :: m2 :: r)
  = ([m1; m2], r)
    :: (if Strptime.between "1" "9" m1 then [([m1], m2 :: r)] else []).
Proof.
  rewrite !ascii_digit_range. unfold digit_value. intros H1 H2 Hmonth.
  digit_cases m1; try lia; digit_cases m2; try lia; reflexivity.
Qed.

Lemma re_Y_four_digits (y1 y2 y3 y4 : char) (r : str) :
  ascii_digit y1 = true -> ascii_digit y2 = true ->
  ascii_digit y3 = true -> ascii_digit y4 = true ->
  Strptime.re_Y (y1 :: y2 :: y3 :: y4 :: r) = [([y1; y2; y3; y4], r)].
Proof.
  intros H1 H2 H3 H4. unfold Strptime.re_Y.
  now rewrite !ascii_digit_isdecimal.
Qed.

Lemma re_dot_digit (c : char) (r : str) :
  ascii_digit c = true -> Strptime.re_dot (c :: r) = [].
Proof.
  rewrite ascii_digit_range. intros H.
  unfold Strptime.re_dot, Strptime.is_char.
  destruct (Z.eqb_spec c (Strptime.ch ".")) as [->|]; [|reflexivity].
  vm_compute in H. destruct H as [H _]. now elim H.
Qed.

Lemma decimal_value_ascii (c : char) :
  ascii_digit c = true -> decimal_value c = digit_value c.
Proof.
  intros H. unfold decimal_value, digit_value.
  change decimal_ranges with ((48, 57) :: tl decimal_ranges).
  cbn [List.find fst snd].
  change ((48 <=? c) && (c <=? 57)) with (ascii_digit c). rewrite H.
  cbn [fst]. apply ascii_digit_range in H. apply Z.mod_small. lia.
Qed.

Lemma int_two_digits (a b : char) :
  ascii_digit a = true -> ascii_digit b = true ->
  int [a; b] = 10 * digit_value a + digit_value b.
Proof.
  intros Ha Hb. unfold int, lstrip_space.
  assert (Hsp : (a =? 32) = false)
    by (apply ascii_digit_range in Ha; apply Z.eqb_neq; lia).
  rewrite Hsp. cbn [fold_left].
  rewrite !decimal_value_ascii by assumption. lia.
Qed.

Lemma int_four_digits (a b c d : char) :
  ascii_digit a = true -> ascii_digit b = true ->
  ascii_digit c = true -> ascii_digit d = true ->
  int [a; b; c; d]
  = 1000 * digit_value a + 100 * digit_value b + 10 * digit_value c
    + digit_value d.
Proof.
  intros Ha Hb Hc Hd. unfold int, lstrip_space.
  assert (Hsp : (a =? 32) = false)
    by (apply ascii_digit_range in Ha; apply Z.eqb_neq; lia).
  rewrite Hsp. cbn [fold_left].
  rewrite !decimal_value_ascii by assumption. lia.
Qed.

Lemma re_dot_dot (r : str) : Strptime.re_dot (46 :: r) = [r].
Proof. reflexivity. Qed.

(** A real date written DD.MM.YYYY is parsed as the date it denotes. *)
Lemma strptime_dd_mm_yyyy (s : str) :
  real_dd_mm_yyyy s = true -> Strptime.strptime_dmY s = Ok (denoted s).
Proof.
  unfold real_dd_mm_yyyy, dd_mm_yyyy.
  destruct s as [|d1 [|d2 [|p1 [|m1 [|m2 [|p2 [|y1 [|y2 [|y3 [|y4 [|? ?]]]]]]]]]]];
    try discriminate.
  intros H. apply andb_true_iff in H as [H Hvalid].
  apply andb_true_iff in H as [H Hp2]. apply andb_true_iff in H as [H Hp1].
  apply Z.eqb_eq in Hp1, Hp2. subst p1 p2.
  cbn [forallb] in H.
  repeat (apply andb_true_iff in H as [? H]). clear H.
  destruct (valid_fields _ Hvalid) as (Hy & Hm & Hd).
  cbn [denoted Date.year Date.month Date.day] in *.
  assert (Hdim : Date.days_in_month
                   (1000 * digit_value y1 + 100 * digit_value y2
                    + 10 * digit_value y3 + digit_value y4)
                   (10 * digit_value m1 + digit_value m2) <= 31).
  { unfold Date.days_in_month.
    match goal with |- context [if ?c then _ else _] => destruct c end;
      [lia|].
    set (m := 10 * digit_value m1 + digit_value m2) in *.
    assert (Hc : m = 1 \/ m = 2 \/ m = 3 \/ m = 4 \/ m = 5 \/ m = 6
                 \/ m = 7 \/ m = 8 \/ m = 9 \/ m = 10 \/ m = 11 \/ m = 12)
      by lia.
    destruct Hc as [->|[->|[->|[->|[->|[->|[->|[->|[->|[->|[->| ->]]]]]]]]]]];
      simpl; lia. }
  unfold Strptime.strptime_dmY, Strptime.matches.
  rewrite re_d_two_digits by (auto; lia).
  cbn [flat_map fst snd app]. rewrite re_dot_dot. cbn [flat_map app].
  rewrite re_m_two_digits by (auto; lia).
  cbn [flat_map fst snd app]. rewrite re_dot_dot. cbn [flat_map app].
  rewrite re_Y_four_digits by auto.
  cbn [map fst snd app truthy].
  rewrite !int_two_digits, int_four_digits by auto.
  apply new_ok; auto.
Qed.

(** *** Printing *)

Lemma two_digits_value (a b : Z) :
  0 <= a <= 9 -> 0 <= b <= 9 ->
  Date.two_digits (10 * a + b) = [48 + a; 48 + b].
Proof.
  intros Ha Hb. unfold Date.two_digits, Date.digit_char.
  assert (H1 : (10 * a + b) / 10 = a)
    by (symmetry; apply (Z.div_unique _ _ a b); lia).
  assert (H2 : (10 * a + b) mod 10 = b)
    by (symmetry; apply (Z.mod_unique _ _ a b); lia).
  rewrite H1, H2, (Z.mod_small a) by lia. reflexivity.
Qed.

Lemma four_digits_value (a b c d : Z) :
  0 <= a <= 9 -> 0 <= b <= 9 -> 0 <= c <= 9 -> 0 <= d <= 9 ->
  Date.four_digits (1000 * a + 100 * b + 10 * c + d)
  = [48 + a; 48 + b; 48 + c; 48 + d].
Proof.
  intros Ha Hb Hc Hd. unfold Date.four_digits, Date.digit_char.
  set (y := 1000 * a + 100 * b + 10 * c + d).
  assert (H1 : y / 1000 = a)
    by (symmetry; apply (Z.div_unique _ _ a (100 * b + 10 * c + d));
        subst y; lia).
  assert (H2 : y / 100 = 10 * a + b)
    by (symmetry; apply (Z.div_unique _ _ _ (10 * c + d)); subst y; lia).
  assert (H3 : y / 10 = 100 * a + 10 * b + c)
    by (symmetry; apply (Z.div_unique _ _ _ d); subst y; lia).
  assert (H4 : y mod 10 = d)
    by (symmetry; apply (Z.mod_unique _ _ (100 * a + 10 * b + c) d);
        subst y; lia).
  assert (H5 : (10 * a + b) mod 10 = b)
    by (symmetry; apply (Z.mod_unique _ _ a b); lia).
  assert (H6 : (100 * a + 10 * b + c) mod 10 = c)
    by (symmetry; apply (Z.mod_unique _ _ (10 * a + b) c); lia).
  rewrite H1, H2, H3, H4, H5, H6, (Z.mod_small a) by lia. reflexivity.
Qed.

(** From 1000 on, a year printed without padding has its four digits. *)
Lemma plain_digits_four (y : Z) :
  1000 <= y <= 9999 -> Date.plain_digits 4 y = Date.four_digits y.
Proof.
  intros Hy. unfold Date.plain_digits, Date.four_digits.
  assert (H1 : 100 <= y / 10 < 1000)
    by (split; [apply Z.div_le_lower_bound | apply Z.div_lt_upper_bound];
        lia).
  assert (H2 : 10 <= y / 10 / 10 < 100)
    by (split; [apply Z.div_le_lower_bound | apply Z.div_lt_upper_bound];
        lia).
  assert (H3 : 1 <= y / 10 / 10 / 10 < 10)
    by (split; [apply Z.div_le_lower_bound | apply Z.div_lt_upper_bound];
        lia).
  destruct (Z.ltb_spec y 10); [lia|].
  destruct (Z.ltb_spec (y / 10) 10); [lia|].
  destruct (Z.ltb_spec (y / 10 / 10) 10); [lia|].
  destruct (Z.ltb_spec (y / 10 / 10 / 10) 10); [|lia].
  rewrite !Z.div_div by lia. reflexivity.
Qed.

(** Below 1000 it is shorter. *)
Lemma plain_digits_short (y : Z) :
  y < 1000 -> (List.length (Date.plain_digits 4 y) <= 3)%nat.
Proof.
  intros Hy. unfold Date.plain_digits.
  destruct (Z.ltb_spec y 10); [simpl; lia|].
  destruct (Z.ltb_spec (y / 10) 10); [simpl; lia|].
  destruct (Z.ltb_spec (y / 10 / 10) 10); [simpl; lia|].
  exfalso.
  assert (y / 10 / 10 < 10); [|lia].
  rewrite Z.div_div by lia. apply Z.div_lt_upper_bound; lia.
Qed.

(** C6, as the specification has it, fails where the C library prints
    [%Y] without padding: the year 0999 comes back as 999. *)
Lemma Birthday_year_0999_printed_short :
  ~ round_trips false (lit "01.01.0999").
Proof.
  intros H. destruct (H eq_refl) as (b & Hb & Hstr).
  vm_compute in Hb. injection Hb as <-.
  vm_compute in Hstr. discriminate Hstr.
Qed.

(** C6, amended.  A real date written DD.MM.YYYY is accepted as the
    date it denotes, and printing the [Birthday] gives the text back
    whenever the year is 1000 or later, and for every year where [%Y] is
    printed in four digits; where it is printed without padding, the
    text of an earlier year does not come back. *)
Theorem Birthday_round_trip (pad_year : bool) (s : str) :
  real_dd_mm_yyyy s = true ->
  Birthday_init s = Ok (mkBirthday s (Some (denoted s)))
  /\ (pad_year = true \/ 1000 <= Date.year (denoted s) ->
      Birthday_str pad_year (mkBirthday s (Some (denoted s))) = s)
  /\ (pad_year = false -> Date.year (denoted s) < 1000 ->
      Birthday_str pad_year (mkBirthday s (Some (denoted s))) <> s).
Proof.
  intros Hreal.
  pose proof (strptime_dd_mm_yyyy s Hreal) as Hparse.
  unfold real_dd_mm_yyyy, dd_mm_yyyy in Hreal.
  destruct s as [|d1 [|d2 [|p1 [|m1 [|m2 [|p2 [|y1 [|y2 [|y3 [|y4 [|? ?]]]]]]]]]]];
    try discriminate.
  apply andb_true_iff in Hreal as [H Hvalid].
  apply andb_true_iff in H as [H Hp2]. apply andb_true_iff in H as [H Hp1].
  apply Z.eqb_eq in Hp1, Hp2. subst p1 p2.
  cbn [forallb] in H.
  repeat (apply andb_true_iff in H as [? H]). clear H.
  repeat match goal with
  | H : ascii_digit _ = true |- _ => apply ascii_digit_range in H
  end.
  split; [|split].
  - unfold Birthday_init. cbn [truthy]. now rewrite Hparse.
  - intros Hpad.
    unfold Birthday_str, Date.strftime_dmY, Date.strftime_Y.
    cbn [birthday_date denoted Date.year Date.month Date.day] in *.
    assert (Hyear : (if pad_year
                     then Date.four_digits
                            (1000 * digit_value y1 + 100 * digit_value y2
                             + 10 * digit_value y3 + digit_value y4)
                     else Date.plain_digits 4
                            (1000 * digit_value y1 + 100 * digit_value y2
                             + 10 * digit_value y3 + digit_value y4))
                    = [y1; y2; y3; y4]).
    { assert (Hfour : Date.four_digits
                        (1000 * digit_value y1 + 100 * digit_value y2
                         + 10 * digit_value y3 + digit_value y4)
                      = [y1; y2; y3; y4]).
      { unfold digit_value. rewrite four_digits_value by lia.
        repeat f_equal; lia. }
      destruct pad_year; [exact Hfour|].
      destruct Hpad as [Hpad|Hpad]; [discriminate|].
      rewrite plain_digits_four; [exact Hfour|].
      unfold digit_value in *. lia. }
    rewrite Hyear. unfold digit_value.
    rewrite !two_digits_value by lia.
    change (lit ".") with [46]. cbn [app].
    repeat f_equal; lia.
  - intros -> Hshort Heq.
    unfold Birthday_str, Date.strftime_dmY, Date.strftime_Y in Heq.
    cbn [birthday_date] in Heq.
    apply (f_equal (@List.length char)) in Heq.
    pose proof (plain_digits_short _ Hshort) as Hlen.
    rewrite !length_app in Heq. cbn [List.length Date.two_digits] in Heq.
    change (List.length (lit ".")) with 1%nat in Heq.
    lia.
Qed.

Lemma Birthday_round_trip_witness :
  Birthday_str false
    (mkBirthday (lit "29.02.2024") (Some (denoted (lit "29.02.2024"))))
  = lit "29.02.2024"
  /\ Birthday_str true
       (mkBirthday (lit "01.01.0999") (Some (denoted (lit "01.01.0999"))))
     = lit "01.01.0999"
  /\ Birthday_str false
       (mkBirthday (lit "01.01.0999") (Some (denoted (lit "01.01.0999"))))
     <> lit "01.01.0999".
Proof.
  split; [|split].
  - apply (Birthday_round_trip false (lit "29.02.2024") eq_refl).
    right. vm_compute. discriminate.
  - apply (Birthday_round_trip true (lit "01.01.0999") eq_refl).
    now left.
  - apply (Birthday_round_trip false (lit "01.01.0999") eq_refl);
      reflexivity.
Defined.

(** * Further properties *)

(** ** The birthdays of the coming week, continued *)

Lemma for_each_raises {A S} (body : S -> A -> result S) (x : A)
    (xs : list A) (acc : S) :
  In x xs -> (forall acc', is_ok (body acc' x) = false) ->
  is_ok (for_each body xs acc) = false.
Proof.
  intros Hin Hraise. revert acc.
  induction xs as [|y ys IH]; intros acc; [destruct Hin|].
  simpl. unfold bind_result.
  destruct (body acc y) as [acc1|e] eqn:Hstep; [|reflexivity].
  destruct Hin as [->|Hin]; [|now apply IH].
  pose proof (Hraise acc) as Hx. rewrite Hstep in Hx. discriminate Hx.
Qed.

Lemma per_record_bucket (today owa : Date.date)
    (acc acc' : PyDict.dict (list str)) (record : Record) (day : str) :
  per_record today owa acc record = Ok acc' ->
  bucket acc' day
  = bucket acc day
    ++ (if listed_under today owa day record then [name record] else []).
Proof.
  unfold per_record, listed_under, listing.
  destruct (birthday record) as [b|];
    [|intros [= <-]; now rewrite app_nil_r].
  destruct (birthday_date b) as [born|]; [|discriminate].
  simpl. unfold bind_result.
  destruct (occurrence today born) as [occ|e]; [|discriminate].
  destruct (Date.leb today occ && Date.leb occ owa).
  - intros [= <-]. rewrite bucket_append_to.
    destruct (PyStr.eqb (birthday_weekday occ) day);
      [reflexivity | now rewrite app_nil_r].
  - intros [= <-]. now rewrite app_nil_r.
Qed.

Lemma for_each_bucket (today owa : Date.date) (records : list Record)
    (day : str) :
  forall acc result,
    for_each (per_record today owa) records acc = Ok result ->
    bucket result day
    = bucket acc day
      ++ map name (filter (listed_under today owa day) records).
Proof.
  induction records as [|record records IH]; simpl; intros acc result.
  - intros [= <-]. now rewrite app_nil_r.
  - unfold bind_result.
    destruct (per_record today owa acc record) as [acc1|e] eqn:Hstep;
      [|discriminate].
    intros Hrest. rewrite (IH _ _ Hrest).
    rewrite (per_record_bucket _ _ _ _ _ day Hstep), <- app_assoc.
    now destruct (listed_under today owa day record).
Qed.

(** X1.  When [get_birthdays_per_week] returns, the list under a day is
    the names of the records listed under that day, in the order in
    which the directory holds them, a name once for each such record. *)
Theorem buckets_follow_directory_order
    (self : AddressBook) (today : Date.date)
    (result : PyDict.dict (list str)) :
  get_birthdays_per_week self today = Ok result ->
  exists one_week_ahead,
    Date.add_days today 7 = Ok one_week_ahead
    /\ forall day,
        bucket result day
        = map name (filter (listed_under today one_week_ahead day)
                      (PyDict.values (data self))).
Proof.
  unfold get_birthdays_per_week. simpl. unfold bind_result.
  destruct (Date.add_days today 7) as [owa|e]; [|discriminate].
  intros Hloop. exists owa. split; [reflexivity|].
  intros day. now rewrite (for_each_bucket _ _ _ day _ _ Hloop).
Qed.

Lemma buckets_follow_directory_order_witness :
  let carl := mkRecord (lit "Carl") [] (Some fifth_of_november) in
  let book := add_record book_bob carl in
  exists result,
    get_birthdays_per_week book a_saturday = Ok result
    /\ bucket result (lit "Monday") = [lit "Bob"; lit "Carl"].
Proof.
  intros carl book. eexists. split; [reflexivity|].
  match goal with
  | |- bucket ?r _ = _ =>
      destruct (buckets_follow_directory_order book a_saturday r eq_refl)
        as (owa & Howa & Hbuckets)
  end.
  rewrite Hbuckets. vm_compute in Howa. injection Howa as <-.
  reflexivity.
Defined.

Lemma leb_of_not_ltb (a b : Date.date) :
  Date.ltb a b = false -> Date.leb b a = true.
Proof.
  unfold Date.leb, Date.ltb, Date.eqb. intros H.
  destruct (Z.ltb_spec (Date.year a) (Date.year b)); [discriminate|].
  destruct (Z.ltb_spec (Date.year b) (Date.year a)); [reflexivity|].
  assert (Hy : Date.year a = Date.year b) by lia.
  rewrite Hy, Z.eqb_refl in *. simpl in *.
  destruct (Z.ltb_spec (Date.month a) (Date.month b)); [discriminate|].
  destruct (Z.ltb_spec (Date.month b) (Date.month a)); [reflexivity|].
  assert (Hm : Date.month a = Date.month b) by lia.
  rewrite Hm, Z.eqb_refl in *. simpl in *.
  destruct (Z.ltb_spec (Date.day a) (Date.day b)); [discriminate|].
  destruct (Z.ltb_spec (Date.day b) (Date.day a)); [reflexivity|].
  assert (Hd : Date.day b = Date.day a) by lia.
  rewrite Hd, Z.eqb_refl. reflexivity.
Qed.

(** X2.  The occurrence the loop looks at keeps the month and the day of
    the birthday, lies in today's year or the next, and is never before
    today: of the test [today <= birthday_this_year <= one_week_ahead]
    the first half always holds. *)
Theorem occurrence_is_today_or_later (today born occ : Date.date) :
  occurrence today born = Ok occ ->
  Date.month occ = Date.month born
  /\ Date.day occ = Date.day born
  /\ (Date.year occ = Date.year today
      \/ Date.year occ = Date.year today + 1)
  /\ Date.leb today occ = true.
Proof.
  unfold occurrence, Date.replace_year. simpl. unfold bind_result.
  destruct (Date.new (Date.year today) (Date.month born) (Date.day born))
    as [this_year|e] eqn:Hnew; [|discriminate].
  apply new_valid in Hnew as [-> _]. simpl.
  destruct (Date.ltb _ today) eqn:Hpast.
  - intros Hnext. apply new_valid in Hnext as [-> _]. simpl.
    repeat split; auto.
    unfold Date.leb, Date.ltb. simpl.
    destruct (Z.ltb_spec (Date.year today) (Date.year today + 1));
      [reflexivity | lia].
  - intros [= <-]. simpl. repeat split; auto.
    now apply leb_of_not_ltb.
Qed.

Lemma occurrence_is_today_or_later_witness :
  Date.leb a_saturday (Date.mkdate 2024 1 15) = true
  /\ Date.year (Date.mkdate 2024 1 15) = Date.year a_saturday + 1.
Proof.
  destruct (occurrence_is_today_or_later a_saturday
              (Date.mkdate 1990 1 15) (Date.mkdate 2024 1 15) eq_refl)
    as (_ & _ & _ & Hlater).
  split; [exact Hlater | reflexivity].
Defined.

Lemma birthday_weekday_working (d : Date.date) :
  In (birthday_weekday d) working_days.
Proof.
  unfold birthday_weekday, Date.strftime_A, working_days.
  assert (H : 0 <= Date.weekday d < 7)
    by (unfold Date.weekday; apply Z.mod_pos_bound; lia).
  destruct (Z.geb_spec (Date.weekday d) 5) as [Hge|Hlt]; [now left|].
  assert (Date.weekday d = 0 \/ Date.weekday d = 1 \/ Date.weekday d = 2
          \/ Date.weekday d = 3 \/ Date.weekday d = 4)
    as [->|[->|[->|[->| ->]]]] by lia; simpl; auto 6.
Qed.

Lemma get_of_in {V} (d : PyDict.dict V) (k : str) (v : V) :
  NoDup (PyDict.keys d) -> In (k, v) d -> PyDict.get d k = Some v.
Proof.
  induction d as [|[k0 v0] d IH]; simpl; intros Hnd; [intros []|].
  inversion Hnd as [|? ? Hnotin Hnd']; subst.
  intros [[= -> ->]|Hin].
  - now rewrite eqb_refl.
  - destruct (eqb_spec k0 k) as [->|]; [|now apply IH].
    exfalso. apply Hnotin. unfold PyDict.keys.
    apply in_map_iff. now exists (k, v).
Qed.

(** X3.  The keys of the mapping [get_birthdays_per_week] returns are
    names of working days: neither "Saturday" nor "Sunday", nor any
    other text, is ever a key. *)
Theorem keys_are_working_days
    (self : AddressBook) (today : Date.date)
    (result : PyDict.dict (list str)) :
  get_birthdays_per_week self today = Ok result ->
  forall day, In day (PyDict.keys result) -> In day working_days.
Proof.
  intros Hresult day Hday.
  destruct (get_birthdays_per_week_returns_buckets _ _ _ Hresult)
    as (owa & _ & Hin & Hne & Hnd).
  unfold PyDict.keys in Hday. apply in_map_iff in Hday as ([k names] & <- & Hk).
  simpl. pose proof (Hne _ _ Hk) as Hnames.
  destruct names as [|n names]; [congruence|].
  assert (Hn : In n (bucket result k)).
  { unfold bucket. rewrite (get_of_in _ _ _ Hnd Hk). now left. }
  apply Hin in Hn as (record & _ & b & born & occ & _ & _ & _ & _ & _ & -> & _).
  apply birthday_weekday_working.
Qed.

Lemma keys_are_working_days_witness : In (lit "Monday") working_days.
Proof.
  apply (keys_are_working_days book_bob a_saturday
           [(lit "Monday", [lit "Bob"])] eq_refl).
  now left.
Defined.

Lemma for_each_ok {A S} (body : S -> A -> result S) (xs : list A) :
  (forall x, In x xs -> forall acc, exists acc', body acc x = Ok acc') ->
  forall acc, exists r, for_each body xs acc = Ok r.
Proof.
  induction xs as [|x xs IH]; intros Hbody acc; simpl; [eauto|].
  destruct (Hbody x (or_introl eq_refl) acc) as [acc' ->]. simpl.
  apply IH. intros y Hy. apply Hbody. now right.
Qed.

Lemma is_leap_next (y : Z) :
  Date.is_leap y = true -> Date.is_leap (y + 1) = false.
Proof.
  unfold Date.is_leap. intros H. apply andb_true_iff in H as [H _].
  apply Z.eqb_eq in H.
  destruct (Z.eqb_spec ((y + 1) mod 4) 0) as [H1|]; [|reflexivity].
  exfalso. revert H H1. Z.div_mod_to_equations. lia.
Qed.

Lemma new_leap_day_fails (y : Z) :
  Date.is_leap y = false -> is_ok (Date.new y 2 29) = false.
Proof.
  intros Hy. unfold Date.new, Date.check_date_fields, Date.days_in_month.
  rewrite Hy. simpl.
  destruct (negb _); reflexivity.
Qed.

Lemma leap_day_fields (born : Date.date) :
  is_leap_day born = true -> Date.month born = 2 /\ Date.day born = 29.
Proof.
  unfold is_leap_day. intros H. apply andb_true_iff in H as [H1 H2].
  now apply Z.eqb_eq in H1, H2.
Qed.

Lemma occurrence_of_leap_day_ok (today born : Date.date) :
  is_leap_day born = true -> 1 <= Date.year today <= 9999 ->
  leap_day_ahead today = true ->
  exists occ, occurrence today born = Ok occ.
Proof.
  intros Hborn Hy Hahead. apply leap_day_fields in Hborn as [Hm Hd].
  unfold leap_day_ahead in Hahead.
  apply andb_true_iff in Hahead as [Hleap Hnot].
  apply negb_true_iff in Hnot.
  unfold occurrence, Date.replace_year. rewrite Hm, Hd.
  rewrite new_ok; try lia.
  - simpl. rewrite Hnot. eauto.
  - unfold Date.days_in_month. rewrite Hleap. simpl. lia.
Qed.

Lemma occurrence_of_leap_day_raises (today born : Date.date) :
  is_leap_day born = true -> leap_day_ahead today = false ->
  is_ok (occurrence today born) = false.
Proof.
  intros Hborn Hahead. apply leap_day_fields in Hborn as [Hm Hd].
  unfold leap_day_ahead in Hahead.
  unfold occurrence, Date.replace_year. rewrite Hm, Hd.
  destruct (Date.is_leap (Date.year today)) eqn:Hleap.
  - simpl in Hahead. apply negb_false_iff in Hahead.
    simpl. unfold bind_result.
    destruct (Date.new (Date.year today) 2 29) as [d|e] eqn:Hnew;
      [|reflexivity].
    apply new_valid in Hnew as [-> _]. rewrite Hahead. simpl.
    apply new_leap_day_fails. now apply is_leap_next.
  - pose proof (new_leap_day_fails _ Hleap) as Hfail.
    simpl. unfold bind_result.
    destruct (Date.new (Date.year today) 2 29); [discriminate|reflexivity].
Qed.

(** X4.  For a valid [today] before the year 9999 and a directory whose
    stored birthdays all have a valid date, [get_birthdays_per_week]
    returns exactly when the directory holds no birthday on the 29th of
    February, or today lies in a leap year on the 29th of February at
    the latest; otherwise it raises. *)
Theorem query_returns_iff_leap_day_ahead
    (self : AddressBook) (today : Date.date) :
  Date.valid today = true -> Date.year today < 9999 ->
  dated_birthdays self ->
  (is_ok (get_birthdays_per_week self today) = true
   <-> (holds_leap_day self -> leap_day_ahead today = true)).
Proof.
  intros Hvalid Hyear Hdated.
  destruct (valid_fields today Hvalid) as (Hy & _).
  split.
  - intros Hok (record & bd & born & Hin & Hbd & Hborn & Hleap).
    destruct (leap_day_ahead today) eqn:Hahead; [reflexivity|].
    exfalso. revert Hok.
    unfold get_birthdays_per_week. simpl. unfold bind_result.
    destruct (Date.add_days today 7) as [owa|e]; [|discriminate].
    rewrite (for_each_raises _ record); [discriminate | exact Hin |].
    intros acc. unfold per_record. rewrite Hbd, Hborn. simpl.
    pose proof (occurrence_of_leap_day_raises today born Hleap Hahead).
    unfold bind_result. now destruct (occurrence today born).
  - intros Hfit.
    unfold get_birthdays_per_week, Date.add_days. simpl. unfold bind_result.
    pose proof (toordinal_bounds today Hvalid Hyear) as [Hlo Hhi].
    destruct (Z.ltb_spec 0 (Date.toordinal today + 7)); [|lia].
    destruct (Z.leb_spec (Date.toordinal today + 7) Date.MAXORDINAL);
      [|lia].
    simpl. set (owa := Date.ord2ymd (Date.toordinal today + 7)).
    destruct (for_each_ok (per_record today owa)
                (PyDict.values (data self))) with (acc := @PyDict.empty (list str))
      as [r ->]; [|reflexivity].
    intros record Hin acc. unfold per_record.
    destruct (birthday record) as [bd|] eqn:Hbd; [|eauto].
    destruct (Hdated record bd Hin Hbd) as (born & Hborn & Hv).
    rewrite Hborn.
    assert (Hocc : exists occ, occurrence today born = Ok occ).
    { destruct (is_leap_day born) eqn:Hleap.
      - apply occurrence_of_leap_day_ok;
          [exact Hleap | lia | apply Hfit; now exists record, bd, born].
      - apply occurrence_ok; [exact Hv | exact Hleap | lia]. }
    destruct Hocc as [occ ->]. simpl.
    destruct (_ && _); eauto.
Qed.

Lemma query_returns_iff_leap_day_ahead_witness :
  is_ok (get_birthdays_per_week book_bob_ann (Date.mkdate 2024 2 27)) = true
  /\ leap_day_ahead (Date.mkdate 2024 2 27) = true
  /\ is_ok (get_birthdays_per_week book_bob_ann a_saturday) = false.
Proof.
  assert (Hdated : dated_birthdays book_bob_ann).
  { intros record bd [<-|[<-|[]]] [= <-]; eexists; split; reflexivity. }
  assert (Hholds : holds_leap_day book_bob_ann).
  { exists ann, leap_day, (Date.mkdate 2024 2 29).
    repeat split. right. now left. }
  destruct (query_returns_iff_leap_day_ahead book_bob_ann
              (Date.mkdate 2024 2 27) eq_refl eq_refl Hdated)
    as [Hto Hfrom].
  destruct (query_returns_iff_leap_day_ahead book_bob_ann
              a_saturday eq_refl eq_refl Hdated) as [Hto' _].
  split; [|split].
  - apply Hfrom. intros _. reflexivity.
  - apply Hto; [reflexivity | exact Hholds].
  - destruct (is_ok (get_birthdays_per_week book_bob_ann a_saturday))
      eqn:Hok; [|reflexivity].
    discriminate (Hto' eq_refl Hholds).
Defined.

(** ** The directory, continued *)

Section DictDelete.
Context {V : Type}.
Implicit Types (d : PyDict.dict V) (k : str) (v : V).

Lemma get_none_of_notin d k :
  ~ In k (PyDict.keys d) -> PyDict.get d k = None.
Proof.
  induction d as [|[k0 v0] d IH]; simpl; intros Hk; [reflexivity|].
  destruct (eqb_spec k0 k) as [->|]; [|apply IH]; tauto.
Qed.

Lemma get_del_same d k :
  NoDup (PyDict.keys d) -> PyDict.get (PyDict.del d k) k = None.
Proof.
  induction d as [|[k0 v0] d IH]; simpl; intros Hnd; [reflexivity|].
  inversion Hnd as [|? ? Hnotin Hnd']; subst.
  destruct (eqb_spec k0 k) as [->|Hk0]; simpl.
  - now apply get_none_of_notin.
  - rewrite (eqb_neq _ _ Hk0). now apply IH.
Qed.

Lemma get_del_other d k k' :
  k <> k' -> PyDict.get (PyDict.del d k) k' = PyDict.get d k'.
Proof.
  intros Hk. induction d as [|[k0 v0] d IH]; simpl; [reflexivity|].
  destruct (eqb_spec k0 k) as [->|Hk0]; simpl.
  - now rewrite (eqb_neq _ _ Hk).
  - now rewrite IH.
Qed.

Lemma del_set_fresh d k v :
  PyDict.get d k = None -> PyDict.del (PyDict.set d k v) k = d.
Proof.
  induction d as [|[k0 v0] d IH]; simpl.
  - now rewrite eqb_refl.
  - destruct (eqb_spec k0 k) as [->|Hk0]; [discriminate|].
    intros Hd. simpl. rewrite (eqb_neq _ _ Hk0). now rewrite IH.
Qed.

Lemma in_set d k v (kv : str * V) :
  In kv (PyDict.set d k v) -> kv = (k, v) \/ In kv d.
Proof.
  induction d as [|[k0 v0] d IH]; simpl.
  - intros [<-|[]]. now left.
  - destruct (eqb_spec k0 k) as [->|Hk0]; simpl.
    + intros [<-|H]; auto.
    + intros [<-|H]; auto. destruct (IH H); auto.
Qed.

Lemma in_del d k (kv : str * V) : In kv (PyDict.del d k) -> In kv d.
Proof.
  induction d as [|[k0 v0] d IH]; simpl; auto.
  destruct (PyStr.eqb k0 k); simpl; intuition.
Qed.

Lemma get_in d k v : PyDict.get d k = Some v -> In (k, v) d.
Proof.
  induction d as [|[k0 v0] d IH]; simpl; [discriminate|].
  destruct (eqb_spec k0 k) as [->|].
  - intros [= ->]. now left.
  - intros H. right. now apply IH.
Qed.

End DictDelete.

(** X5.  In a directory that holds no name twice, after
    [delete_record b n] nothing is found under [n], every other name
    finds what it found before, and still no name is held twice;
    deleting a name that is not there leaves the directory as it is. *)
Theorem delete_record_removes_only_that_name (b : AddressBook) (n : str) :
  one_record_per_name b ->
  find (delete_record b n) n = None
  /\ (forall other, other <> n ->
        find (delete_record b n) other = find b other)
  /\ one_record_per_name (delete_record b n)
  /\ (find b n = None -> delete_record b n = b).
Proof.
  unfold one_record_per_name, find, delete_record, PyDict.contains.
  intros Hnd.
  destruct (PyDict.get (data b) n) eqn:Hget; simpl.
  - repeat split.
    + now apply get_del_same.
    + intros other Hother. apply get_del_other. congruence.
    + now apply NoDup_keys_del.
    + discriminate.
  - repeat split; auto.
Qed.

Lemma delete_record_removes_only_that_name_witness :
  find (delete_record book_bob_ann (lit "Bob")) (lit "Bob") = None
  /\ find (delete_record book_bob_ann (lit "Bob")) (lit "Ann") = Some ann
  /\ delete_record book_bob (lit "Ann") = book_bob.
Proof.
  assert (Hnd : one_record_per_name book_bob_ann)
    by (apply built_one_record_per_name; repeat constructor).
  assert (Hnd' : one_record_per_name book_bob)
    by (apply built_one_record_per_name; repeat constructor).
  destruct (delete_record_removes_only_that_name book_bob_ann (lit "Bob")
              Hnd) as (Hgone & Hothers & _).
  destruct (delete_record_removes_only_that_name book_bob (lit "Ann") Hnd')
    as (_ & _ & _ & Hsame).
  split; [exact Hgone | split].
  - rewrite Hothers; [reflexivity | discriminate].
  - apply Hsame. reflexivity.
Defined.

(** X6.  Adding a record under a name the directory does not hold and
    deleting that name again gives the directory back, order of the
    other records included. *)
Theorem add_then_delete_restores (b : AddressBook) (r : Record) :
  find b (name r) = None ->
  delete_record (add_record b r) (name r) = b.
Proof.
  unfold find, delete_record, add_record, PyDict.contains. simpl.
  intros Hnone. rewrite get_set_same, del_set_fresh by exact Hnone.
  now destruct b.
Qed.

Lemma add_then_delete_restores_witness :
  delete_record (add_record book_bob ann) (lit "Ann") = book_bob.
Proof. apply (add_then_delete_restores book_bob ann). reflexivity. Defined.

Lemma filed_by_name_set (b : AddressBook) (key : str) (record : Record) :
  filed_by_name b -> name record = key ->
  filed_by_name (mkAddressBook (PyDict.set (data b) key record)).
Proof.
  intros Hb Hr k r Hin. simpl in Hin.
  apply in_set in Hin as [[= -> ->]|Hin]; auto.
Qed.

Lemma built_filed_by_name (b : AddressBook) : built b -> filed_by_name b.
Proof.
  induction 1 as [|b r _ IH|b n _ IH].
  - intros k r [].
  - now apply filed_by_name_set.
  - unfold delete_record. destruct (PyDict.contains (data b) n); auto.
    intros k r Hin. apply IH. simpl in Hin. eapply in_del; eauto.
Qed.

Lemma reachable_filed_by_name
    (str_strip str_lower : str -> str) (pad_year : bool) (w : World) :
  reachable str_strip str_lower pad_year w ->
  filed_by_name (address_book w).
Proof.
  apply reachable_invariant.
  - intros key phone. apply keeps_add_contact.
    intros b p Hb. now apply filed_by_name_set.
  - intros key new_phone. apply keeps_change_phone.
    intros b record old_phone Hb Hfind. apply filed_by_name_set; auto.
    simpl. apply Hb. now apply get_in.
  - intros key birthday. apply keeps_add_birthday.
    intros b record bd Hb Hfind. apply filed_by_name_set; auto.
    simpl. apply Hb. now apply get_in.
  - intros k r [].
Qed.

(** X7.  A record that [find] returns for a name bears that name: in
    every directory built with [add_record] and [delete_record], and in
    every state the command loop reaches. *)
Theorem found_record_bears_the_name :
  (forall b key record,
      built b -> find b key = Some record -> name record = key)
  /\ (forall str_strip str_lower pad_year w key record,
        reachable str_strip str_lower pad_year w ->
        find (address_book w) key = Some record -> name record = key).
Proof.
  split.
  - intros b key record Hb Hfind.
    apply (built_filed_by_name b Hb). now apply get_in.
  - intros str_strip str_lower pad_year w key record Hw Hfind.
    apply (reachable_filed_by_name _ _ _ w Hw). now apply get_in.
Qed.

Lemma found_record_bears_the_name_witness :
  let same := fun s : str => s in
  let w := snd (loop_body same same true a_saturday
                  (Contact.init [lit "add"; lit "Ann"; lit "1234567890"])) in
  name ann = lit "Ann"
  /\ exists record, find (address_book w) (lit "Ann") = Some record
                    /\ name record = lit "Ann".
Proof.
  intros same w.
  destruct found_record_bears_the_name as [Hbuilt Hloop]. split.
  - apply (Hbuilt book_bob_ann); [repeat constructor | reflexivity].
  - eexists. split; [reflexivity|].
    apply (Hloop same same true w (lit "Ann")); [|reflexivity].
    apply reach_turn with (today := a_saturday)
      (w := Contact.init [lit "add"; lit "Ann"; lit "1234567890"]);
      [apply reach_start | vm_compute; reflexivity].
Defined.

(** ** The phones of a record *)

Lemma filter_all {A} (p : A -> bool) (l : list A) :
  (forall x, In x l -> p x = true) -> filter p l = l.
Proof.
  induction l as [|x l IH]; simpl; intros H; [reflexivity|].
  rewrite (H x (or_introl eq_refl)). f_equal. apply IH. auto.
Qed.

Lemma filter_app_out {A} (p : A -> bool) (l : list A) (x : A) :
  p x = false -> filter p (l ++ [x]) = filter p l.
Proof.
  intros Hx. rewrite filter_app. simpl. rewrite Hx. apply app_nil_r.
Qed.

Lemma filter_kept_in_order {A} (keep : A -> bool) (l : list A) :
  kept_in_order (filter keep l) l.
Proof.
  induction l as [|x l IH]; simpl; [constructor|].
  destruct (keep x); now constructor.
Qed.

Lemma filter_length_split {A} (keep : A -> bool) (l : list A) :
  List.length l
  = (List.length (filter keep l)
     + List.length (filter (fun x => negb (keep x)) l))%nat.
Proof.
  induction l as [|x l IH]; simpl; [reflexivity|].
  destruct (keep x); simpl; lia.
Qed.

(** X8.  [delete_phone] removes every phone whose text is the one given
    and no other, keeps the order of those that stay, the name and the
    birthday; with no such phone it leaves the record as it is, and a
    second call changes nothing more.  The phones that stay are the
    record's phones with some left out, in the order they had, and as
    many are left out as the record has phones of that text. *)
Theorem delete_phone_removes_all_equal (r : Record) (p : str) :
  name (delete_phone r p) = name r
  /\ birthday (delete_phone r p) = birthday r
  /\ (forall q, In q (phones (delete_phone r p)) <->
                In q (phones r) /\ phone_value q <> p)
  /\ ((forall q, In q (phones r) -> phone_value q <> p) ->
      delete_phone r p = r)
  /\ delete_phone (delete_phone r p) p = delete_phone r p
  /\ kept_in_order (phones (delete_phone r p)) (phones r)
  /\ List.length (phones r)
     = (List.length (phones (delete_phone r p))
        + List.length
            (filter (fun q => PyStr.eqb (phone_value q) p) (phones r)))%nat.
Proof.
  assert (Hkeep : forall q : Phone,
             negb (PyStr.eqb (Phone_str q) p) = true <-> phone_value q <> p).
  { intros q. unfold Phone_str. rewrite negb_true_iff.
    destruct (eqb_spec (phone_value q) p); split; congruence. }
  split; [reflexivity | split; [reflexivity|]].
  split; [|split; [|split; [|split]]].
  - intros q. unfold delete_phone. simpl.
    rewrite filter_In, Hkeep. reflexivity.
  - intros Hnone. unfold delete_phone.
    rewrite filter_all; [now destruct r|].
    intros q Hq. apply Hkeep. now apply Hnone.
  - unfold delete_phone. simpl. f_equal.
    apply filter_all. intros q Hq. now apply filter_In in Hq.
  - unfold delete_phone. simpl. apply filter_kept_in_order.
  - unfold delete_phone. simpl.
    rewrite (filter_length_split
               (fun q => negb (PyStr.eqb (Phone_str q) p)) (phones r))
      at 1.
    f_equal. f_equal. apply filter_ext. intros q.
    unfold Phone_str. apply negb_involutive.
Qed.

Lemma delete_phone_removes_all_equal_witness :
  phones (delete_phone ann_three_phones (lit "1111111111"))
  = [mkPhone (lit "2222222222")]
  /\ delete_phone ann_three_phones (lit "5555555555") = ann_three_phones.
Proof.
  split; [reflexivity|].
  destruct (delete_phone_removes_all_equal ann_three_phones
              (lit "5555555555")) as (_ & _ & _ & Habsent & _).
  apply Habsent. intros q [<-|[<-|[<-|[]]]]; discriminate.
Defined.

(** X9.  A number that the record does not hold yet, added with
    [add_phone] and deleted with [delete_phone], leaves the record as it
    was. *)
Theorem add_then_delete_phone_restores (r : Record) (p : str) :
  is_ok (Phone_init p) = true ->
  (forall q, In q (phones r) -> phone_value q <> p) ->
  exists r', add_phone r p = Ok r'
             /\ phones r' = phones r ++ [mkPhone p]
             /\ delete_phone r' p = r.
Proof.
  intros Hok Hfresh. unfold add_phone, Phone_init in *. simpl.
  destruct (_ || _); [discriminate|]. simpl.
  eexists. split; [reflexivity | split; [reflexivity|]].
  unfold delete_phone. simpl.
  rewrite filter_app_out by (simpl; now rewrite eqb_refl).
  rewrite filter_all; [now destruct r|].
  intros q Hq. unfold Phone_str. apply negb_true_iff.
  apply eqb_neq. now apply Hfresh.
Qed.

Lemma add_then_delete_phone_restores_witness :
  exists r', add_phone ann (lit "5555555555") = Ok r'
             /\ delete_phone r' (lit "5555555555") = ann.
Proof.
  destruct (add_then_delete_phone_restores ann (lit "5555555555") eq_refl)
    as (r' & Hadd & _ & Hdel).
  - intros q [<-|[]]. discriminate.
  - exists r'. auto.
Defined.



(** ** The controller, continued *)

(** X11.  With a phone text that [Phone] accepts, [add_contact] returns,
    writes its message, and leaves under the name a record with that one
    phone and no birthday, whatever record, phones and birthday the name
    had before; every other name finds what it found before. *)
Theorem add_contact_stores_fresh_record (w : World) (key phone : str) :
  is_ok (Phone_init phone) = true ->
  let w' := snd (Contact.add_contact key phone w) in
  fst (Contact.add_contact key phone w) = Ok tt
  /\ stdout w' = stdout w ++ [lit "Contact added successfully."]
  /\ stdin w' = stdin w
  /\ find (address_book w') key = Some (mkRecord key [mkPhone phone] None)
  /\ (forall other, other <> key ->
        find (address_book w') other = find (address_book w) other).
Proof.
  intros Hok. unfold Contact.add_contact, add_phone, lift, Phone_init in *.
  simpl. unfold bind_M. simpl.
  destruct (_ || _); [discriminate|]. simpl.
  repeat split.
  - unfold find. simpl. apply get_set_same.
  - intros other Hother. unfold find. simpl.
    apply get_set_other. congruence.
Qed.

Lemma add_contact_stores_fresh_record_witness :
  let w := mkWorld book_bob_ann [] [] in
  find (address_book (snd (Contact.add_contact (lit "Ann")
                             (lit "5555555555") w))) (lit "Ann")
  = Some (mkRecord (lit "Ann") [mkPhone (lit "5555555555")] None).
Proof.
  intros w.
  apply (add_contact_stores_fresh_record w (lit "Ann") (lit "5555555555")).
  reflexivity.
Defined.

(** X12.  For a record with at least one phone, [change_phone] takes any
    text as the new number, texts that [Phone] refuses included, and
    [show_phone] then prints that text. *)
Theorem change_then_show_prints_new_text
    (w : World) (key text : str) (record : Record) (p0 : Phone)
    (rest : list Phone) :
  find (address_book w) key = Some record ->
  phones record = p0 :: rest ->
  let w' := snd (Contact.change_phone key text w) in
  fst (Contact.change_phone key text w) = Ok tt
  /\ Contact.show_phone key w'
     = (Ok tt, said w' (lit "Phone number for " ++ key ++ lit ": " ++ text)).
Proof.
  intros Hfind Hphones.
  unfold Contact.change_phone, Contact.show_phone, store, get_book,
    put_book, print, said.
  simpl. unfold bind_M. simpl. rewrite Hfind, Hphones. simpl.
  split; [reflexivity|].
  unfold find. simpl. rewrite get_set_same.
  unfold edit_phone. rewrite Hphones. simpl. rewrite eqb_refl. reflexivity.
Qed.

Lemma change_then_show_prints_new_text_witness :
  let w := mkWorld book_bob_ann [] [] in
  is_ok (Phone_init (lit "no number")) = false
  /\ stdout (snd (Contact.show_phone (lit "Ann")
                    (snd (Contact.change_phone (lit "Ann")
                            (lit "no number") w))))
     = [lit "Phone number changed successfully.";
        lit "Phone number for Ann: no number"].
Proof.
  intros w. split; [reflexivity|].
  destruct (change_then_show_prints_new_text w (lit "Ann")
              (lit "no number") ann (mkPhone (lit "1234567890")) []
              eq_refl eq_refl) as [_ Hshow].
  rewrite Hshow. reflexivity.
Defined.

(** A real date written DD.MM.YYYY is printed as it was written, where
    the year has its four digits. *)
Lemma strftime_denoted (pad_year : bool) (s : str) :
  real_dd_mm_yyyy s = true ->
  pad_year = true \/ 1000 <= Date.year (denoted s) ->
  Date.strftime_dmY pad_year (denoted s) = s.
Proof.
  intros Hreal Hpad.
  unfold real_dd_mm_yyyy, dd_mm_yyyy in Hreal.
  destruct s as [|d1 [|d2 [|p1 [|m1 [|m2 [|p2 [|y1 [|y2 [|y3 [|y4 [|? ?]]]]]]]]]]];
    try discriminate.
  apply andb_true_iff in Hreal as [H Hvalid].
  apply andb_true_iff in H as [H Hp2]. apply andb_true_iff in H as [H Hp1].
  apply Z.eqb_eq in Hp1, Hp2. subst p1 p2.
  cbn [forallb] in H.
  repeat (apply andb_true_iff in H as [? H]). clear H.
  repeat match goal with
  | H : ascii_digit _ = true |- _ => apply ascii_digit_range in H
  end.
  unfold Date.strftime_dmY, Date.strftime_Y.
  cbn [denoted Date.year Date.month Date.day] in *.
  set (y := 1000 * digit_value y1 + 100 * digit_value y2
            + 10 * digit_value y3 + digit_value y4) in *.
  assert (Hfour : Date.four_digits y = [y1; y2; y3; y4]).
  { subst y. unfold digit_value. rewrite four_digits_value by lia.
    repeat f_equal; lia. }
  assert (Hyear : (if pad_year then Date.four_digits y
                   else Date.plain_digits 4 y) = [y1; y2; y3; y4]).
  { destruct pad_year; [exact Hfour|].
    destruct Hpad as [Hpad|Hpad]; [discriminate|].
    rewrite plain_digits_four; [exact Hfour|].
    subst y. unfold digit_value in *. lia. }
  rewrite Hyear. unfold digit_value.
  rewrite !two_digits_value by lia.
  change (lit ".") with [46]. cbn [app].
  repeat f_equal; lia.
Qed.

(** X13.  For a contact that exists, a real date written DD.MM.YYYY is
    stored by [add_birthday] with the name and the phones untouched, and
    [show_birthday] then prints the text as it was entered, where the
    year is 1000 or later or [%Y] is printed in four digits. *)
Theorem add_then_show_birthday_prints_text
    (pad_year : bool) (w : World) (key text : str) (record : Record) :
  find (address_book w) key = Some record ->
  real_dd_mm_yyyy text = true ->
  pad_year = true \/ 1000 <= Date.year (denoted text) ->
  let w' := snd (Contact.add_birthday key text w) in
  fst (Contact.add_birthday key text w) = Ok tt
  /\ find (address_book w') key
     = Some (mkRecord (name record) (phones record)
               (Some (mkBirthday text (Some (denoted text)))))
  /\ Contact.show_birthday pad_year key w'
     = (Ok tt, said w' (lit "Birthday for " ++ key ++ lit ": " ++ text)).
Proof.
  intros Hfind Hreal Hpad.
  assert (Hinit : Birthday_init text
                  = Ok (mkBirthday text (Some (denoted text)))).
  { unfold Birthday_init. rewrite (strptime_dd_mm_yyyy text Hreal).
    destruct text; [discriminate Hreal | reflexivity]. }
  unfold Contact.add_birthday, Contact.show_birthday, add_birthday, store,
    get_book, put_book, print, lift, said.
  simpl. unfold bind_M. simpl. rewrite Hfind, Hinit. simpl.
  split; [reflexivity|].
  unfold find. simpl. rewrite get_set_same. simpl.
  split; [reflexivity|].
  unfold Birthday_str. simpl. now rewrite strftime_denoted.
Qed.

Lemma add_then_show_birthday_prints_text_witness :
  let w := mkWorld book_bob [] [] in
  stdout (snd (Contact.show_birthday false (lit "Bob")
                 (snd (Contact.add_birthday (lit "Bob")
                         (lit "29.02.2024") w))))
  = [lit "Birthday added successfully.";
     lit "Birthday for Bob: 29.02.2024"].
Proof.
  intros w.
  assert (Hyear : false = true
                  \/ 1000 <= Date.year (denoted (lit "29.02.2024")))
    by (right; vm_compute; discriminate).
  destruct (add_then_show_birthday_prints_text false w (lit "Bob")
              (lit "29.02.2024") bob eq_refl eq_refl Hyear)
    as (_ & _ & Hshow).
  rewrite Hshow. reflexivity.
Defined.

(** X14.  For a contact that exists, [add_birthday] accepts the empty
    text: the record then holds a birthday without a date, for which
    [show_birthday] prints "No birthday set" as if it were a date, and
    on which [birthdays_this_week] raises on every day, writing
    nothing. *)
Theorem empty_birthday_is_stored
    (pad_year : bool) (w : World) (key : str) (record : Record) :
  find (address_book w) key = Some record ->
  let w' := snd (Contact.add_birthday key [] w) in
  fst (Contact.add_birthday key [] w) = Ok tt
  /\ find (address_book w') key
     = Some (mkRecord (name record) (phones record)
               (Some (mkBirthday [] None)))
  /\ Contact.show_birthday pad_year key w'
     = (Ok tt,
        said w' (lit "Birthday for " ++ key ++ lit ": No birthday set"))
  /\ (forall today,
        exists e, Contact.birthdays_this_week today w' = (Raise e, w')).
Proof.
  intros Hfind.
  unfold Contact.add_birthday, Contact.show_birthday, add_birthday, store,
    get_book, put_book, print, lift, said.
  simpl. unfold bind_M. simpl. rewrite Hfind. simpl.
  split; [reflexivity|].
  unfold find. simpl. rewrite get_set_same. simpl.
  split; [reflexivity | split; [reflexivity|]].
  intros today. unfold Contact.birthdays_this_week, get_book, lift.
  simpl. unfold bind_M. simpl.
  match goal with
  | |- context [get_birthdays_per_week ?b today] =>
      assert (Hbad : is_ok (get_birthdays_per_week b today) = false)
  end.
  { unfold get_birthdays_per_week. simpl. unfold bind_result.
    destruct (Date.add_days today 7); [|reflexivity].
    apply for_each_raises
      with (x := mkRecord (name record) (phones record)
                   (Some (mkBirthday [] None))).
    - simpl. eapply get_in_values. apply get_set_same.
    - intros acc. reflexivity. }
  destruct (get_birthdays_per_week _ today) as [r|e];
    [discriminate | eauto].
Qed.

Lemma empty_birthday_is_stored_witness :
  let w := mkWorld book_bob [] [] in
  stdout (snd (Contact.show_birthday true (lit "Bob")
                 (snd (Contact.add_birthday (lit "Bob") [] w))))
  = [lit "Birthday added successfully.";
     lit "Birthday for Bob: No birthday set"].
Proof.
  intros w.
  destruct (empty_birthday_is_stored true w (lit "Bob") bob eq_refl)
    as (_ & _ & Hshow & _).
  rewrite Hshow. reflexivity.
Defined.

(** X15.  [show_phone], [show_birthday], [birthdays_this_week],
    [list_all_contacts] and [hello] leave the directory as it is,
    whether they return or raise. *)
Theorem queries_leave_the_directory
    (w : World) (key : str) (pad_year : bool) (today : Date.date) :
  address_book (snd (Contact.show_phone key w)) = address_book w
  /\ address_book (snd (Contact.show_birthday pad_year key w))
     = address_book w
  /\ address_book (snd (Contact.birthdays_this_week today w))
     = address_book w
  /\ address_book (snd (Contact.list_all_contacts pad_year w))
     = address_book w
  /\ address_book (snd (Contact.hello w)) = address_book w.
Proof.
  split; [|split; [|split; [|split]]].
  - apply reads_only_show_phone.
  - apply reads_only_show_birthday.
  - apply reads_only_birthdays_this_week.
  - apply reads_only_list_all_contacts.
  - apply reads_only_hello.
Qed.

(** ** The command loop, continued *)

Lemma reads_forward_bind {A B} (m : M A) (k : A -> M B) :
  reads_forward m -> (forall a, reads_forward (k a)) ->
  reads_forward (bind m k).
Proof.
  intros Hm Hk w. simpl. unfold bind_M.
  specialize (Hm w). destruct (m w) as [[a|e] w1]; simpl in *.
  - specialize (Hk a w1). lia.
  - exact Hm.
Qed.

Lemma reads_forward_ret {A} (a : A) : reads_forward (ret a : M A).
Proof. intros w. simpl. lia. Qed.

Lemma reads_forward_print (text : str) : reads_forward (print text).
Proof. intros w. simpl. lia. Qed.

Lemma reads_forward_input (prompt : str) : reads_forward (input prompt).
Proof. intros w. unfold input. destruct (stdin w); simpl; lia. Qed.

Lemma reads_forward_lift {A} (r : result A) : reads_forward (lift r).
Proof. intros w. simpl. lia. Qed.

Lemma reads_forward_get_book : reads_forward get_book.
Proof. intros w. simpl. lia. Qed.

Lemma reads_forward_put_book (b : AddressBook) : reads_forward (put_book b).
Proof. intros w. simpl. lia. Qed.

Lemma reads_forward_print_each (texts : list str) :
  reads_forward (print_each texts).
Proof.
  induction texts as [|t ts IH]; simpl.
  - apply reads_forward_ret.
  - apply reads_forward_bind; [apply reads_forward_print | intros _; exact IH].
Qed.

Create HintDb forward.

#[local] Hint Resolve reads_forward_ret reads_forward_print
  reads_forward_input reads_forward_lift reads_forward_get_book
  reads_forward_put_book reads_forward_print_each : forward.

Ltac reads_forward_steps :=
  repeat first
    [ apply reads_forward_bind; [|intro]
    | solve [auto with forward]
    | match goal with
      | |- reads_forward (match ?x with _ => _ end) => destruct x
      end ].

Lemma reads_forward_add_contact (name phone : str) :
  reads_forward (Contact.add_contact name phone).
Proof. unfold Contact.add_contact. cbv zeta. reads_forward_steps. Qed.

Lemma reads_forward_change_phone (name new_phone : str) :
  reads_forward (Contact.change_phone name new_phone).
Proof. unfold Contact.change_phone, store. reads_forward_steps. Qed.

Lemma reads_forward_show_phone (name : str) :
  reads_forward (Contact.show_phone name).
Proof. unfold Contact.show_phone. reads_forward_steps. Qed.

Lemma reads_forward_add_birthday (name birthday : str) :
  reads_forward (Contact.add_birthday name birthday).
Proof. unfold Contact.add_birthday, store. reads_forward_steps. Qed.

Lemma reads_forward_show_birthday (pad_year : bool) (name : str) :
  reads_forward (Contact.show_birthday pad_year name).
Proof. unfold Contact.show_birthday. reads_forward_steps. Qed.

Lemma reads_forward_birthdays_this_week (today : Date.date) :
  reads_forward (Contact.birthdays_this_week today).
Proof. unfold Contact.birthdays_this_week. reads_forward_steps. Qed.

Lemma reads_forward_list_all_contacts (pad_year : bool) :
  reads_forward (Contact.list_all_contacts pad_year).
Proof. unfold Contact.list_all_contacts. reads_forward_steps. Qed.

Lemma reads_forward_hello : reads_forward Contact.hello.
Proof. unfold Contact.hello. reads_forward_steps. Qed.

#[local] Hint Resolve reads_forward_add_contact reads_forward_change_phone
  reads_forward_show_phone reads_forward_add_birthday
  reads_forward_show_birthday reads_forward_birthdays_this_week
  reads_forward_list_all_contacts reads_forward_hello : forward.

Lemma goes_on_bind {A} (m : M A) (k : A -> M bool) :
  (forall a, goes_on (k a)) -> goes_on (bind m k).
Proof.
  intros Hk w b w'. simpl. unfold bind_M.
  destruct (m w) as [[a|e] w1]; [apply Hk | discriminate].
Qed.

Lemma goes_on_ret_true : goes_on (ret true).
Proof. intros w b w' [= <- _]. reflexivity. Qed.

Section MainLoop.

Variables str_strip str_lower : str -> str.
Variable pad_year : bool.

Lemma reads_forward_ask (prompt : str) :
  reads_forward (ask str_strip prompt).
Proof. unfold ask. reads_forward_steps. Qed.

Lemma bind_ask_reads_a_line {B} (prompt : str) (k : str -> M B)
    (w w' : World) (r : B) :
  (forall a, reads_forward (k a)) ->
  bind (ask str_strip prompt) k w = (Ok r, w') ->
  (List.length (stdin w') < List.length (stdin w))%nat.
Proof.
  intros Hk. unfold ask, input. simpl. unfold bind_M.
  destruct (stdin w) as [|line rest] eqn:Hin; [discriminate|].
  simpl. intros Hrun.
  match type of Hrun with
  | k ?a ?w1 = _ => pose proof (Hk a w1) as Hle
  end.
  rewrite Hrun in Hle. simpl in Hle. lia.
Qed.

(** A turn that returns has read a line. *)
Lemma loop_body_reads_a_line (today : Date.date) (w w' : World) (b : bool) :
  loop_body str_strip str_lower pad_year today w = (Ok b, w') ->
  (List.length (stdin w') < List.length (stdin w))%nat.
Proof.
  unfold loop_body. apply bind_ask_reads_a_line. intros line. cbv zeta.
  pose proof reads_forward_ask as Hask.
  repeat match goal with
  | |- reads_forward (if ?c then _ else _) => destruct c
  | |- reads_forward (bind _ _) => apply reads_forward_bind; [|intro]
  | |- reads_forward _ => solve [auto with forward]
  end.
Qed.

Lemma main_loop_ends_within_the_input (clock later : list Date.date) :
  forall w,
    (List.length (stdin w) < List.length clock)%nat ->
    main_loop str_strip str_lower pad_year (clock ++ later) w
    = main_loop str_strip str_lower pad_year clock w.
Proof.
  induction clock as [|today clock IH]; intros w Hlen;
    [simpl in Hlen; lia|].
  simpl. unfold bind_M.
  destruct (loop_body str_strip str_lower pad_year today w)
    as [[[|]|e] w1] eqn:Hturn; try reflexivity.
  apply IH. apply loop_body_reads_a_line in Hturn. simpl in Hlen. lia.
Qed.

(** X16.  The loop ends, on [exit], [close] or an exception, within as
    many turns as there are lines to read and one more: the dates of
    later turns are never asked for, and the outcome does not depend on
    them. *)
Theorem main_ends_within_the_input
    (lines : list str) (clock later : list Date.date) :
  (List.length lines < List.length clock)%nat ->
  main str_strip str_lower pad_year lines (clock ++ later)
  = main str_strip str_lower pad_year lines clock.
Proof.
  intros Hlen. unfold main. now apply main_loop_ends_within_the_input.
Qed.

(** A turn that returns [false] has written the parting message last. *)
Lemma loop_body_break (today : Date.date) (w w' : World) :
  loop_body str_strip str_lower pad_year today w = (Ok false, w') ->
  last (stdout w') [] = lit "Exiting program...".
Proof.
  unfold loop_body. simpl. unfold bind_M at 1.
  destruct (ask str_strip (lit "Enter command: ") w) as [[line|e] w1];
    [|discriminate].
  cbv zeta.
  repeat match goal with
  | |- (if ?c then _ else _) _ = _ -> _ => destruct c
  end;
  try (intros Hrun; exfalso;
       assert (Hon : false = true); [|discriminate Hon];
       revert Hrun;
       match goal with
       | |- ?m w1 = _ -> _ => apply (fun H : goes_on m => H w1 false w')
       end;
       repeat (apply goes_on_bind; intro); apply goes_on_ret_true).
  simpl. unfold bind_M. simpl. intros [= <-]. simpl. apply last_last.
Qed.

(** X17.  [main] returns only after [exit] or [close]: when it returns
    within the turns it is given, the parting message is the last thing
    written; otherwise it ends in an exception. *)
Theorem main_returns_only_on_exit
    (lines : list str) (clock : list Date.date) (w' : World) :
  (List.length lines < List.length clock)%nat ->
  main str_strip str_lower pad_year lines clock = (Ok tt, w') ->
  last (stdout w') [] = lit "Exiting program...".
Proof.
  unfold main.
  change lines with (stdin (Contact.init lines)) at 1.
  generalize (Contact.init lines). intros w. revert w.
  induction clock as [|today clock IH]; intros w Hlen;
    [simpl in Hlen; lia|].
  simpl. unfold bind_M.
  destruct (loop_body str_strip str_lower pad_year today w)
    as [[[|]|e] w1] eqn:Hturn; try discriminate.
  - apply IH. apply loop_body_reads_a_line in Hturn. simpl in Hlen. lia.
  - intros [= <-]. eapply loop_body_break. exact Hturn.
Qed.

End MainLoop.

Lemma main_ends_within_the_input_witness :
  main (fun s => s) (fun s => s) true [lit "hello"]
    ([a_saturday; a_saturday] ++ [Date.mkdate 2024 2 29])
  = main (fun s => s) (fun s => s) true [lit "hello"]
      [a_saturday; a_saturday].
Proof.
  apply (main_ends_within_the_input (fun s => s) (fun s => s) true).
  simpl. lia.
Defined.

Lemma main_returns_only_on_exit_witness :
  last (stdout (snd (main (fun s => s) (fun s => s) true
                       [lit "hello"; lit "exit"]
                       [a_saturday; a_saturday; a_saturday])))
    [] = lit "Exiting program...".
Proof.
  apply (main_returns_only_on_exit (fun s => s) (fun s => s) true
           [lit "hello"; lit "exit"] [a_saturday; a_saturday; a_saturday]).
  - simpl. lia.
  - reflexivity.
Defined.

(** ** What the controller reports *)

Lemma no_listing_no_bucket (today owa : Date.date) (records : list Record) :
  (forall record, In record records -> listing today owa record = None) ->
  forall day, filter (listed_under today owa day) records = [].
Proof.
  intros Hnone day. induction records as [|r rs IH]; [reflexivity|].
  simpl. unfold listed_under at 1. rewrite (Hnone r (or_introl eq_refl)).
  apply IH. intros r' Hr'. apply Hnone. now right.
Qed.

Lemma empty_buckets_no_listing (today owa : Date.date)
    (records : list Record) :
  (forall day, filter (listed_under today owa day) records = []) ->
  forall record, In record records -> listing today owa record = None.
Proof.
  intros Hempty record Hin.
  destruct (listing today owa record) as [day|] eqn:Hday; [|reflexivity].
  assert (Hkeep : In record (filter (listed_under today owa day) records)).
  { apply filter_In. split; [exact Hin|].
    unfold listed_under. rewrite Hday. apply eqb_refl. }
  rewrite Hempty in Hkeep. destruct Hkeep.
Qed.

(** X18.  When the query returns, [birthdays_this_week] writes that
    there are no birthdays for the next week exactly when the loop
    lists no stored record; otherwise it writes the heading and one
    line for each day that is a key. *)
Theorem no_birthdays_message_iff_nobody_listed
    (w : World) (today one_week_ahead : Date.date)
    (result : PyDict.dict (list str)) :
  get_birthdays_per_week (address_book w) today = Ok result ->
  Date.add_days today 7 = Ok one_week_ahead ->
  (Contact.birthdays_this_week today w
   = (Ok tt, said w (lit "No birthdays for the next week."))
   <-> forall record,
         In record (PyDict.values (data (address_book w))) ->
         listing today one_week_ahead record = None)
  /\ (result <> [] ->
      fst (Contact.birthdays_this_week today w) = Ok tt
      /\ exists texts,
           stdout (snd (Contact.birthdays_this_week today w))
           = stdout w ++ lit "Birthdays for the next week:" :: texts
           /\ List.length texts = List.length (PyDict.keys result)).
Proof.
  intros Hresult Howa.
  destruct (get_birthdays_per_week_returns_buckets _ _ _ Hresult)
    as (_ & _ & _ & Hne & Hnd).
  assert (Hbuckets : forall day,
    bucket result day
    = map name (filter (listed_under today one_week_ahead day)
                  (PyDict.values (data (address_book w))))).
  { intros day. revert Hresult.
    unfold get_birthdays_per_week. simpl. unfold bind_result.
    rewrite Howa. intros Hloop.
    now rewrite (for_each_bucket _ _ _ day _ _ Hloop). }
  assert (Hrun :
    Contact.birthdays_this_week today w
    = match result with
      | [] => (Ok tt, said w (lit "No birthdays for the next week."))
      | _ :: _ =>
          bind (print (lit "Birthdays for the next week:"))
            (fun _ => print_each
               (map (fun item => fst item ++ lit ": "
                                 ++ join (lit ", ") (snd item))
                  (PyDict.items result))) w
      end).
  { unfold Contact.birthdays_this_week, get_book, lift.
    simpl. unfold bind_M. simpl. rewrite Hresult.
    destruct result; reflexivity. }
  assert (Heach : forall texts w0,
    fst (print_each texts w0) = Ok tt
    /\ stdout (snd (print_each texts w0)) = stdout w0 ++ texts).
  { induction texts as [|t ts IH]; intros w0; simpl.
    - now rewrite app_nil_r.
    - unfold bind_M. simpl. destruct (IH (said w0 t)) as [H1 H2].
      unfold said in *. split; [exact H1|].
      rewrite H2. simpl. now rewrite <- app_assoc. }
  split; [split|].
  - intros Hnone. rewrite Hrun in Hnone.
    destruct result as [|[day names] result'].
    + apply empty_buckets_no_listing. intros day.
      specialize (Hbuckets day). unfold bucket in Hbuckets.
      simpl in Hbuckets. symmetry in Hbuckets.
      now apply map_eq_nil in Hbuckets.
    + exfalso. simpl in Hnone. unfold bind_M in Hnone. simpl in Hnone.
      match type of Hnone with
      | print_each ?ts ?w0 = _ =>
          destruct (Heach ts w0) as [_ Hout]; rewrite Hnone in Hout
      end.
      simpl in Hout. rewrite <- !app_assoc in Hout.
      apply app_inv_head in Hout. discriminate Hout.
  - intros Hnone. rewrite Hrun.
    destruct result as [|[day names] result']; [reflexivity|].
    exfalso. apply (Hne day names (or_introl eq_refl)).
    assert (Hb : bucket ((day, names) :: result') day = names).
    { unfold bucket. simpl. now rewrite eqb_refl. }
    rewrite <- Hb, Hbuckets.
    now rewrite (no_listing_no_bucket _ _ _ Hnone).
  - intros Hsome. rewrite Hrun.
    destruct result as [|item result']; [congruence|].
    simpl. unfold bind_M. simpl.
    match goal with
    | |- context [print_each ?ts ?w0] =>
        destruct (Heach ts w0) as [Hok Hout]
    end.
    split; [exact Hok|].
    eexists. split.
    + rewrite Hout. simpl. rewrite <- !app_assoc. reflexivity.
    + simpl. unfold PyDict.keys, PyDict.items. now rewrite !length_map.
Qed.

Lemma no_birthdays_message_iff_nobody_listed_witness :
  let w := mkWorld book_bob [] [] in
  Contact.birthdays_this_week (Date.mkdate 2023 6 1) w
  = (Ok tt, said w (lit "No birthdays for the next week."))
  /\ fst (Contact.birthdays_this_week a_saturday w) = Ok tt.
Proof.
  intros w. split.
  - destruct (no_birthdays_message_iff_nobody_listed w
                (Date.mkdate 2023 6 1) (Date.mkdate 2023 6 8) []
                eq_refl eq_refl) as [[_ Hnone] _].
    apply Hnone. intros record [<-|[]]. reflexivity.
  - destruct (no_birthdays_message_iff_nobody_listed w a_saturday
                (Date.mkdate 2023 11 11) [(lit "Monday", [lit "Bob"])]
                eq_refl eq_refl) as [_ Hsome].
    apply Hsome. discriminate.
Defined.
